(** * Palm capture: the phase state machines, the landmark evaluators and
      the embedding aggregator of the two screens (guided capture and game).

    JavaScript numbers are IEEE 754 binary64 values; they are embedded as
    Rocq's primitive floats, whose operations the kernel evaluates exactly as
    the hardware does.  The averaging loop of [saveEmbedding] is written once
    over an arithmetic interface, so that it can be run in binary64 (what the
    program does) and over the rationals (arithmetic without rounding). *)

From Stdlib Require Import String.
From Stdlib Require Import Floats ZArith List Bool Permutation Lia.
From Stdlib Require Import QArith Qcanon.
Import ListNotations.

Close Scope Qc_scope.
Close Scope Q_scope.
Open Scope nat_scope.

Set Warnings "-inexact-float".
Set Implicit Arguments.

(* ================================================================== *)
(** * Arithmetic used by the averaging loop *)

Class Arith (A : Type) : Type := {
  zero : A;
  add : A -> A -> A;
  div : A -> A -> A;
  of_nat : nat -> A
}.

(** [array.length] as a binary64 number (exact below 2^53). *)
Definition float_of_nat (n : nat) : float :=
  PrimFloat.of_uint63 (Uint63.of_Z (Z.of_nat n)).

#[export] Instance float_Arith : Arith float := {
  zero := 0%float;
  add := PrimFloat.add;
  div := PrimFloat.div;
  of_nat := float_of_nat
}.

#[export] Instance Qc_Arith : Arith Qc := {
  zero := Q2Qc 0;
  add := Qcplus;
  div := Qcdiv;
  of_nat := fun n => Q2Qc (inject_Z (Z.of_nat n))
}.

(* ================================================================== *)
(** * The built-ins of [Math] the screens call, on binary64 *)

Module JsMath.

Definition is_neg_zero (a : float) : bool :=
  PrimFloat.is_zero a && PrimFloat.get_sign a.

(** [Math.min(a, b)]: NaN if either is NaN; -0 is below +0. *)
Definition min (a b : float) : float :=
  if (a <? b)%float then a
  else if (b <? a)%float then b
  else if (a =? b)%float then (if is_neg_zero a then a else b)
  else PrimFloat.nan.

(** [Math.max(a, b)]: NaN if either is NaN; +0 is above -0. *)
Definition max (a b : float) : float :=
  if (a <? b)%float then b
  else if (b <? a)%float then a
  else if (a =? b)%float then (if is_neg_zero a then b else a)
  else PrimFloat.nan.

Definition abs (a : float) : float := PrimFloat.abs a.
Definition sqrt (a : float) : float := PrimFloat.sqrt a.

(** An integer below 2^53 in magnitude as a binary64 number. *)
Definition float_of_Z (z : Z) : float :=
  match z with
  | Z0 => 0%float
  | Zpos _ => PrimFloat.of_uint63 (Uint63.of_Z z)
  | Zneg p => (- PrimFloat.of_uint63 (Uint63.of_Z (Zpos p)))%float
  end.

(** [Math.floor(x)]: a finite [x] with a negative exponent has a
    fractional part and a magnitude below 2^53. *)
Definition floor (x : float) : float :=
  match Prim2SF x with
  | S754_finite s m e =>
      if (0 <=? e)%Z then x
      else
        let q := Z.shiftr (Zpos m) (- e) in
        let exact := (Z.shiftl q (- e) =? Zpos m)%Z in
        if s then (if exact then x else float_of_Z (- (q + 1)))
        else float_of_Z q
  | _ => x
  end.

(** [Math.ceil(x)] is [-Math.floor(-x)], signed zeros included. *)
Definition ceil (x : float) : float := (- floor (- x))%float.

End JsMath.

(* ================================================================== *)
(** * Landmarks, frames and the persisted record *)

Record Point (A : Type) : Type := mkPoint { px : A; py : A; pz : A }.

Definition Frame (A : Type) : Type := list (Point A).

(** [p.z || 0]: a falsy number (0, -0, NaN) is replaced by 0. *)
Definition or_zero (z : float) : float :=
  if (z =? 0)%float || PrimFloat.is_nan z then 0%float else z.

(** [results.landmarks[0].map(p => ({ x: p.x, y: p.y, z: p.z || 0 }))] *)
Definition normalize (raw : Frame float) : Frame float :=
  map (fun p => mkPoint (px p) (py p) (or_zero (pz p))) raw.

Record EmbeddingRecord : Type := mkRecord {
  embedding : Frame float;
  timestamp : Z;
  userId : string
}.

(** [getAuth(app).currentUser?.uid || "unknown"] *)
Definition userId_of (uid : option string) : string :=
  match uid with
  | Some (String c s) => String c s
  | _ => "unknown"%string
  end.

(** What [detectForVideo] gave this tick: it threw, or it returned the
    hands it found (at most one is configured; none when the list is empty). *)
Inductive Detection : Type :=
  | DetectionFailed
  | Hands (landmarks : list (Frame float)).

(* ================================================================== *)
(** * The averaging loop of [saveEmbedding] (both screens) *)

Section Averaging.
Context {A : Type} `{Arith A}.

(** The inner [forEach]: [sum.x += frame[i].x; ...] over the buffer.
    [None] is the TypeError of reading [.x] of an absent [frame[i]]. *)
Definition sum_step (i : nat) (sum : option (Point A)) (frame : Frame A)
  : option (Point A) :=
  match sum, nth_error frame i with
  | Some s, Some p =>
      Some (mkPoint (add (px s) (px p)) (add (py s) (py p)) (add (pz s) (pz p)))
  | _, _ => None
  end.

Definition sum_at (i : nat) (frames : list (Frame A)) : option (Point A) :=
  fold_left (sum_step i) frames (Some (mkPoint zero zero zero)).

(** The outer [for (let i = 0; i < numLandmarks; i++)], [todo] being
    [numLandmarks - i], pushing one averaged point per round. *)
Fixpoint average_loop (frames : list (Frame A)) (todo i : nat)
    (averaged : Frame A) : option (Frame A) :=
  match todo with
  | O => Some averaged
  | S todo' =>
      match sum_at i frames with
      | None => None
      | Some sum =>
          let n := of_nat (length frames) in
          average_loop frames todo' (S i)
            (averaged ++ [mkPoint (div (px sum) n) (div (py sum) n) (div (pz sum) n)])
      end
  end.

(** [numLandmarks = holdFrames[0].length], then the loop.  The callers
    guard the empty buffer; reading [holdFrames[0].length] of an empty
    buffer would throw. *)
Definition average (frames : list (Frame A)) : option (Frame A) :=
  match frames with
  | [] => None
  | first :: _ => average_loop frames (length first) 0 []
  end.

(** The arithmetic mean as the specification words it: the sum of the
    values divided by their number. *)
Definition mean (xs : list A) : A :=
  div (fold_left add xs zero) (of_nat (length xs)).

(** The values a coordinate takes at landmark [i] across the frames. *)
Definition column (coord : Point A -> A) (i : nat) (frames : list (Frame A))
  : list A :=
  flat_map (fun frame => match nth_error frame i with
                         | Some p => [coord p]
                         | None => []
                         end) frames.

Definition mean_point (i : nat) (frames : list (Frame A)) : Point A :=
  mkPoint (mean (column (@px A) i frames))
          (mean (column (@py A) i frames))
          (mean (column (@pz A) i frames)).

End Averaging.

(* ================================================================== *)
(** * The guided capture screen *)

Module Guided.

Definition ACTION_TIME : float := 4000%float.
Definition HOLD_TIME : float := 5000%float.
Definition GUIDE_BOX_RATIO : float := 0.6%float.

Inductive Phase : Type := action | hold | done.

(** The texts given to [setStatus]; a percentage is kept as the number
    the template string prints. *)
Inductive Status : Type :=
  | LoadingModels       (* Loading models... *)
  | MoveInsideBox       (* Move your hand inside the guide box... *)
  | ShowInsideBox       (* Show your hand inside the guide box... *)
  | KeepInsideBox       (* Keep your hand inside the guide box... *)
  | MovePercent (pct : float)   (* Move your hand (pct%) *)
  | HoldFiveSeconds     (* Hold your hand steady for 5 seconds... *)
  | HoldPercent (pct : float)   (* Hold steady (pct%) *)
  | SavingEmbedding     (* Saving your palm embedding... *)
  | NoHandTryAgain      (* No hand detected. Try again *)
  | EmbeddingSaved.     (* Palm embedding saved! *)

(** The calls that leave the state machine, in the order they are made. *)
Inductive Event : Type :=
  | SetStatus (s : Status)
  | SetProgress (p : float)
  | AddDoc (r : EmbeddingRecord)   (* addDoc(collection(db, "embeddings"), r) *)
  | Confetti
  | SetTimeout (ms : float)
  | ConsoleWarn
  | UnhandledRejection.            (* the async function's promise rejected *)

Record State : Type := mkState {
  phase : Phase;                   (* phaseRef.current *)
  phaseStart : float;              (* phaseStartRef.current *)
  holdFrames : list (Frame float); (* holdFramesRef.current *)
  status : Status;
  progress : float;
  trace : list Event
}.

Definition initial : State :=
  mkState action 0%float [] LoadingModels 0%float [].

Definition set_phase (p : Phase) (st : State) : State :=
  mkState p (phaseStart st) (holdFrames st) (status st) (progress st) (trace st).
Definition set_phaseStart (t : float) (st : State) : State :=
  mkState (phase st) t (holdFrames st) (status st) (progress st) (trace st).
Definition set_holdFrames (b : list (Frame float)) (st : State) : State :=
  mkState (phase st) (phaseStart st) b (status st) (progress st) (trace st).
Definition emit (e : Event) (st : State) : State :=
  mkState (phase st) (phaseStart st) (holdFrames st) (status st) (progress st)
          (trace st ++ [e]).
Definition setStatus (s : Status) (st : State) : State :=
  mkState (phase st) (phaseStart st) (holdFrames st) s (progress st)
          (trace st ++ [SetStatus s]).
Definition setProgress (p : float) (st : State) : State :=
  mkState (phase st) (phaseStart st) (holdFrames st) (status st) p
          (trace st ++ [SetProgress p]).

Definition isHandInBox (landmarks : Frame float) (width height : float) : bool :=
  let cx := (width / 2)%float in
  let cy := (height / 2)%float in
  let size := (JsMath.min width height * GUIDE_BOX_RATIO)%float in
  forallb (fun lm =>
    let x := (px lm * width)%float in
    let y := (py lm * height)%float in
    (cx - size / 2 <=? x)%float && (x <=? cx + size / 2)%float
    && (cy - size / 2 <=? y)%float && (y <=? cy + size / 2)%float) landmarks.

(** [saveEmbedding] up to its [await]: the empty-buffer guard, the
    averaging loop and the call of [addDoc]. [wall] is [Date.now()]. *)
Definition saveEmbedding (wall : Z) (uid : option string) (st : State) : State :=
  match holdFrames st with
  | [] => setProgress 0%float (set_phase action (setStatus NoHandTryAgain st))
  | _ :: _ =>
      match average (holdFrames st) with
      | None => emit UnhandledRejection st
      | Some averaged => emit (AddDoc (mkRecord averaged wall (userId_of uid))) st
      end
  end.

(** [saveEmbedding] after its [await]: [addDoc] fulfilled or rejected.
    Nothing catches the rejection. *)
Definition saveEmbedding_settled (fulfilled : bool) (st : State) : State :=
  if fulfilled
  then emit (SetTimeout 3000%float) (setStatus EmbeddingSaved (emit Confetti st))
  else emit UnhandledRejection st.

(** The callback given to [setTimeout]. *)
Definition onTimeout (st : State) : State :=
  setStatus MoveInsideBox (set_holdFrames [] (setProgress 0%float (set_phase action st))).

Definition handleHand (landmarks : Frame float) (width height now : float)
    (wall : Z) (uid : option string) (st : State) : State :=
  if negb (isHandInBox landmarks width height) then setStatus KeepInsideBox st
  else
    let elapsed := (now - phaseStart st)%float in
    match phase st with
    | action =>
        let st1 :=
          setStatus (MovePercent
                       (JsMath.floor (JsMath.min (elapsed / ACTION_TIME * 100) 100)))
            (setProgress (JsMath.min (elapsed / ACTION_TIME) 1) st) in
        if (ACTION_TIME <=? elapsed)%float then
          setStatus HoldFiveSeconds
            (setProgress 0%float
               (set_holdFrames [] (set_phaseStart now (set_phase hold st1))))
        else st1
    | hold =>
        let st1 :=
          setStatus (HoldPercent
                       (JsMath.floor (JsMath.min (elapsed / HOLD_TIME * 100) 100)))
            (setProgress (JsMath.min (elapsed / HOLD_TIME) 1)
               (set_holdFrames (holdFrames st ++ [landmarks]) st)) in
        if (HOLD_TIME <=? elapsed)%float then
          saveEmbedding wall uid
            (set_phase done (setStatus SavingEmbedding (setProgress 1%float st1)))
        else st1
    | done => st
    end.

(** One round of the capture loop, from the detection on. *)
Record Tick : Type := mkTick {
  detection : Detection;
  width : float;                   (* ctx.canvas.width *)
  height : float;                  (* ctx.canvas.height *)
  now : float;                     (* performance.now() *)
  wall : Z;                        (* Date.now() *)
  uid : option string              (* currentUser?.uid *)
}.

Definition detectLoop (t : Tick) (st : State) : State :=
  match detection t with
  | DetectionFailed => emit ConsoleWarn st
  | Hands (raw :: _) =>
      handleHand (normalize raw) (width t) (height t) (now t) (wall t) (uid t) st
  | Hands [] =>
      setStatus ShowInsideBox
        (setProgress 0%float
           (set_phaseStart (now t) (set_phase action (set_holdFrames [] st))))
  end.

(** The button's [onClick]. *)
Definition onClick (now : float) (st : State) : State :=
  set_holdFrames [] (set_phaseStart now (set_phase action st)).

(** Everything that can happen to the screen's state: a round of the loop,
    a click on the button, the settling of an [addDoc], the timer firing. *)
Inductive Input : Type :=
  | Frame_tick (t : Tick)
  | Click (now : float)
  | Save_settled (fulfilled : bool)
  | Timeout_fired.

Definition step (i : Input) (st : State) : State :=
  match i with
  | Frame_tick t => detectLoop t st
  | Click now => onClick now st
  | Save_settled fulfilled => saveEmbedding_settled fulfilled st
  | Timeout_fired => onTimeout st
  end.

Definition run (inputs : list Input) (st : State) : State :=
  fold_left (fun s i => step i s) inputs st.

End Guided.

(* ================================================================== *)
(** * The game screen *)

Module Game.

Definition ACTION_HOLD_TIME : float := 5000%float.
Definition RULES_TIME : float := 10000%float.
Definition GAME_TIME : float := 60000%float.

(** [isMobile] is the user-agent test, made once when the screen starts. *)
Definition TARGET_RADIUS (isMobile : bool) : float :=
  if isMobile then 0.12%float else 0.07%float.

Inductive Phase : Type := idle | rules | game | postHit | finished.

Record Target : Type := mkTarget { tx : float; ty : float }.

Inductive Status : Type :=
  | LoadingModels       (* Loading models... *)
  | PressStart          (* Press 'Start' to begin! *)
  | RulesText (countdown : float)  (* Rules: ... Countdown: (countdown)s *)
  | GameStarted         (* Game started! Move your wrist to the target. *)
  | GameOver (score : float)       (* Game over! Final Score: (score) *)
  | ShowOpenPalm        (* Show a wide-open palm for 5 seconds! *)
  | KeepPalmOpen        (* Keep your palm wide open! Timer reset. *)
  | BackToGame.         (* Back to game! Move your wrist to the next target. *)

Inductive Event : Type :=
  | SetStatus (s : Status)
  | SetProgress (p : float)
  | AddDoc (r : EmbeddingRecord)   (* addDoc(collection(db, "embeddings"), r) *)
  | Confetti
  | ConsoleLog
  | ConsoleError
  | ConsoleWarn
  | UnhandledRejection.

Record State : Type := mkState {
  phase : Phase;                   (* phaseRef.current *)
  phaseStart : float;              (* phaseStartRef.current *)
  holdFrames : list (Frame float); (* holdFramesRef.current *)
  gameStart : float;               (* gameStartRef.current *)
  status : Status;
  progress : float;
  score : float;
  target : Target;
  rulesCountdown : float;
  gameTimeLeft : float;
  trace : list Event
}.

Definition initial : State :=
  mkState idle 0%float [] 0%float LoadingModels 0%float 0%float
          (mkTarget 0.5%float 0.5%float) 7%float 30%float [].

Definition set_phase (p : Phase) (st : State) : State :=
  mkState p (phaseStart st) (holdFrames st) (gameStart st) (status st)
    (progress st) (score st) (target st) (rulesCountdown st) (gameTimeLeft st)
    (trace st).
Definition set_phaseStart (t : float) (st : State) : State :=
  mkState (phase st) t (holdFrames st) (gameStart st) (status st)
    (progress st) (score st) (target st) (rulesCountdown st) (gameTimeLeft st)
    (trace st).
Definition set_holdFrames (b : list (Frame float)) (st : State) : State :=
  mkState (phase st) (phaseStart st) b (gameStart st) (status st)
    (progress st) (score st) (target st) (rulesCountdown st) (gameTimeLeft st)
    (trace st).
Definition set_gameStart (t : float) (st : State) : State :=
  mkState (phase st) (phaseStart st) (holdFrames st) t (status st)
    (progress st) (score st) (target st) (rulesCountdown st) (gameTimeLeft st)
    (trace st).
Definition setScore (s : float) (st : State) : State :=
  mkState (phase st) (phaseStart st) (holdFrames st) (gameStart st) (status st)
    (progress st) s (target st) (rulesCountdown st) (gameTimeLeft st)
    (trace st).
Definition setTarget (t : Target) (st : State) : State :=
  mkState (phase st) (phaseStart st) (holdFrames st) (gameStart st) (status st)
    (progress st) (score st) t (rulesCountdown st) (gameTimeLeft st)
    (trace st).
Definition setRulesCountdown (c : float) (st : State) : State :=
  mkState (phase st) (phaseStart st) (holdFrames st) (gameStart st) (status st)
    (progress st) (score st) (target st) c (gameTimeLeft st)
    (trace st).
Definition setGameTimeLeft (c : float) (st : State) : State :=
  mkState (phase st) (phaseStart st) (holdFrames st) (gameStart st) (status st)
    (progress st) (score st) (target st) (rulesCountdown st) c
    (trace st).
Definition emit (e : Event) (st : State) : State :=
  mkState (phase st) (phaseStart st) (holdFrames st) (gameStart st) (status st)
    (progress st) (score st) (target st) (rulesCountdown st) (gameTimeLeft st)
    (trace st ++ [e]).
Definition setStatus (s : Status) (st : State) : State :=
  mkState (phase st) (phaseStart st) (holdFrames st) (gameStart st) s
    (progress st) (score st) (target st) (rulesCountdown st) (gameTimeLeft st)
    (trace st ++ [SetStatus s]).
Definition setProgress (p : float) (st : State) : State :=
  mkState (phase st) (phaseStart st) (holdFrames st) (gameStart st) (status st)
    p (score st) (target st) (rulesCountdown st) (gameTimeLeft st)
    (trace st ++ [SetProgress p]).

(** The spread of the finger tips along x, as [isPalmOpen] sums it. *)
Definition spread (thumbTip indexTip middleTip ringTip pinkyTip : Point float)
  : float :=
  (JsMath.abs (px indexTip - px pinkyTip)
   + JsMath.abs (px thumbTip - px indexTip)
   + JsMath.abs (px middleTip - px ringTip))%float.

(** [landmarks] is [None] for a null or undefined argument.  The last
    branch is the TypeError of reading [.x] of an absent element. *)
Definition isPalmOpen (landmarks : option (Frame float)) : bool :=
  match landmarks with
  | None => false
  | Some l =>
      if (length l <? 21)%nat then false
      else
        match nth_error l 12, nth_error l 16, nth_error l 8,
              nth_error l 20, nth_error l 4 with
        | Some middleTip, Some ringTip, Some indexTip,
          Some pinkyTip, Some thumbTip =>
            (0.15 <? spread thumbTip indexTip middleTip ringTip pinkyTip)%float
        | _, _, _, _, _ => false
        end
  end.

Definition updateRulesPhase (now : float) (st : State) : State :=
  let elapsed := (now - phaseStart st)%float in
  let remaining := JsMath.max 0 (RULES_TIME - elapsed) in
  let st1 :=
    setStatus (RulesText (JsMath.ceil (remaining / 1000)))
      (setRulesCountdown (JsMath.ceil (remaining / 1000)) st) in
  if (RULES_TIME <=? elapsed)%float then
    setStatus GameStarted
      (setGameTimeLeft 60%float
         (set_gameStart now (set_phaseStart now (set_phase game st1))))
  else st1.

(** [now'] is the second reading of the clock, taken on a hit; [rx] and
    [ry] are the two draws of [Math.random()].  A missing [wrist] makes
    [wrist.x] throw, which the loop's [catch] logs. *)
Definition updateGamePhase (isMobile : bool) (wrist : option (Point float))
    (now now' rx ry : float) (st : State) : State :=
  let elapsed := (now - gameStart st)%float in
  let st1 :=
    setGameTimeLeft (JsMath.max 0 (JsMath.ceil ((GAME_TIME - elapsed) / 1000))) st in
  if (GAME_TIME <=? elapsed)%float then
    setStatus (GameOver (score st1)) (set_phase finished st1)
  else
    match wrist with
    | None => emit ConsoleWarn st1
    | Some wrist =>
        let dx := (px wrist - tx (target st1))%float in
        let dy := (py wrist - ty (target st1))%float in
        if (JsMath.sqrt (dx * dx + dy * dy) <? TARGET_RADIUS isMobile)%float then
          setStatus ShowOpenPalm
            (setProgress 0%float
               (set_holdFrames []
                  (set_phaseStart now'
                     (set_phase postHit
                        (setTarget (mkTarget rx ry)
                           (setScore (score st1 + 1)%float st1))))))
        else st1
    end.

(** [saveEmbedding] up to its [await]: the guard, the averaging loop and
    the call of [addDoc]. [wall] is [Date.now()]. *)
Definition saveEmbedding (wall : Z) (uid : option string) (st : State) : State :=
  match holdFrames st with
  | [] => st
  | _ :: _ =>
      match average (holdFrames st) with
      | None => emit UnhandledRejection st
      | Some averaged => emit (AddDoc (mkRecord averaged wall (userId_of uid))) st
      end
  end.

(** [saveEmbedding] after its [await], inside [try ... catch]. *)
Definition saveEmbedding_settled (fulfilled : bool) (st : State) : State :=
  if fulfilled then emit ConsoleLog (emit Confetti st)
  else emit ConsoleError st.

Definition updatePostHitPhase (landmarks : Frame float) (now : float)
    (wall : Z) (uid : option string) (st : State) : State :=
  if negb (isPalmOpen (Some landmarks)) then
    setStatus KeepPalmOpen
      (setProgress 0%float (set_holdFrames [] (set_phaseStart now st)))
  else
    let st1 := set_holdFrames (holdFrames st ++ [landmarks]) st in
    let elapsed := (now - phaseStart st1)%float in
    let st2 := setProgress (JsMath.min (elapsed / ACTION_HOLD_TIME) 1) st1 in
    if (ACTION_HOLD_TIME <=? elapsed)%float then
      set_holdFrames []
        (setStatus BackToGame
           (setProgress 0%float
              (set_phaseStart now (set_phase game (saveEmbedding wall uid st2)))))
    else st2.

(** One round of the loop, from the detection on. *)
Record Tick : Type := mkTick {
  detection : Detection;
  now : float;                     (* performance.now() *)
  now' : float;                    (* performance.now(), read again on a hit *)
  random_x : float;                (* Math.random() *)
  random_y : float;                (* Math.random() *)
  wall : Z;                        (* Date.now() *)
  uid : option string              (* currentUser?.uid *)
}.

Definition detectLoop (isMobile : bool) (t : Tick) (st : State) : State :=
  match detection t with
  | DetectionFailed => emit ConsoleWarn st
  | Hands (raw :: _) =>
      let landmarks := normalize raw in
      let wrist := nth_error landmarks 0 in
      match phase st with
      | rules => updateRulesPhase (now t) st
      | game =>
          updateGamePhase isMobile wrist (now t) (now' t)
            (random_x t) (random_y t) st
      | postHit => updatePostHitPhase landmarks (now t) (wall t) (uid t) st
      | _ => st
      end
  | Hands [] =>
      match phase st with
      | rules => setRulesCountdown 7%float st
      | _ => st
      end
  end.

(** The start button, rendered only while the phase is [idle]. *)
Definition onClick (now : float) (st : State) : State :=
  match phase st with
  | idle => setRulesCountdown 7%float (set_phaseStart now (set_phase rules st))
  | _ => st
  end.

(** Everything that can happen to the screen's state. *)
Inductive Input : Type :=
  | Frame_tick (t : Tick)
  | Click (now : float)
  | Save_settled (fulfilled : bool).

Definition step (isMobile : bool) (i : Input) (st : State) : State :=
  match i with
  | Frame_tick t => detectLoop isMobile t st
  | Click now => onClick now st
  | Save_settled fulfilled => saveEmbedding_settled fulfilled st
  end.

Definition run (isMobile : bool) (inputs : list Input) (st : State) : State :=
  fold_left (fun s i => step isMobile i s) inputs st.

End Game.


(* ================================================================== *)
(** * The words of the specification *)

(** [clamp(x, lo, hi)], in the usual JavaScript idiom
    [Math.max(lo, Math.min(x, hi))]. *)
Definition clamp (x lo hi : float) : float := JsMath.max lo (JsMath.min x hi).

(** A number that is above zero or is +0. *)
Definition nonneg (x : float) : Prop := (0 <? x)%float = true \/ x = 0%float.

(** The centered square of the guide box: side [min(width, height) * 0.6],
    centre [(width / 2, height / 2)]. *)
Definition square_side (width height : float) : float :=
  (JsMath.min width height * 0.6)%float.

(** The pixel projection of a landmark lies inside the square or on its
    boundary. *)
Definition in_square (width height : float) (lm : Point float) : Prop :=
  let half := (square_side width height / 2)%float in
  (width / 2 - half <=? px lm * width)%float = true
  /\ (px lm * width <=? width / 2 + half)%float = true
  /\ (height / 2 - half <=? py lm * height)%float = true
  /\ (py lm * height <=? height / 2 + half)%float = true.

(** The pixel projection of a landmark lies strictly beyond one side. *)
Definition strictly_outside (width height : float) (lm : Point float) : Prop :=
  let half := (square_side width height / 2)%float in
  (px lm * width <? width / 2 - half)%float = true
  \/ (width / 2 + half <? px lm * width)%float = true
  \/ (py lm * height <? height / 2 - half)%float = true
  \/ (height / 2 + half <? py lm * height)%float = true.

(** [===] on two optional frames, landmark by landmark. *)
Definition frame_eqb (a b : option (Frame float)) : bool :=
  match a, b with
  | Some a, Some b =>
      (length a =? length b)%nat
      && forallb (fun pq =>
           (px (fst pq) =? px (snd pq))%float
           && (py (fst pq) =? py (snd pq))%float
           && (pz (fst pq) =? pz (snd pq))%float) (combine a b)
  | None, None => true
  | _, _ => false
  end.

(** Ticks of the game screen that see no hand. *)
Definition no_hand (t : Game.Tick) : Prop := Game.detection t = Hands [].

(* ================================================================== *)
(** * Sample inputs *)

(** The frame of the specification's round trip: every landmark at
    x = 0.3, y = 0.4, z = 0.1. *)
Definition constant_frame : Frame float :=
  repeat (mkPoint 0.3%float 0.4%float 0.1%float) 21.

Definition constant_frame_exact : Frame Qc :=
  repeat (mkPoint (Q2Qc (3 # 10)) (Q2Qc (4 # 10)) (Q2Qc (1 # 10))) 21.

(** Three one-landmark frames whose order matters to a binary64 sum. *)
Definition frames_up : list (Frame float) :=
  [[mkPoint 0.1%float 0.1%float 0%float];
   [mkPoint 0.2%float 0.2%float 0%float];
   [mkPoint 0.3%float 0.3%float 0%float]].

(** Two one-landmark frames over the rationals. *)
Definition frame_low : Frame Qc := [mkPoint (Q2Qc (1 # 10)) (Q2Qc (1 # 5)) (Q2Qc 0)].
Definition frame_high : Frame Qc := [mkPoint (Q2Qc (3 # 10)) (Q2Qc (2 # 5)) (Q2Qc 1)].

(** A 21-landmark hand whose every landmark projects to the centre. *)
Definition centred_hand : Frame float :=
  repeat (mkPoint 0.5%float 0.5%float 0%float) 21.

(** The same hand with its wrist moved to the left edge of the picture. *)
Definition hand_with_wrist_out : Frame float :=
  mkPoint 0.1%float 0.5%float 0%float
  :: repeat (mkPoint 0.5%float 0.5%float 0%float) 20.

(** A 21-landmark hand with spread finger tips (x of landmark i is i/20). *)
Definition open_hand : Frame float :=
  map (fun i => mkPoint (float_of_nat i / 20)%float 0.5%float 0%float) (seq 0 21).

(** Guided screen: a hold in progress, one frame buffered, the phase clock
    started at 0. *)
Definition guided_holding : Guided.State :=
  Guided.mkState Guided.hold 0%float [centred_hand] Guided.HoldFiveSeconds
    0%float [].

(** Guided screen: a tick that sees the centred hand on a 640 x 480 canvas. *)
Definition guided_tick_at (now : float) : Guided.Tick :=
  Guided.mkTick (Hands [centred_hand]) 640%float 480%float now
    1700000000000%Z None.

(** Game screen: a post-hit hold started at time 1000 with nothing buffered
    yet, two targets already hit. *)
Definition game_after_hit : Game.State :=
  Game.mkState Game.postHit 1000%float [] 500%float Game.ShowOpenPalm 0%float
    2%float (Game.mkTarget 0.25%float 0.75%float) 0%float 59%float [].

(** Game screen: a game under way since time 500, the target in the centre. *)
Definition game_playing : Game.State :=
  Game.mkState Game.game 500%float [] 500%float Game.GameStarted 0%float
    2%float (Game.mkTarget 0.5%float 0.5%float) 0%float 59%float [].

(** Game screen: a tick that sees the hands [hands] (or none) at [now]. *)
Definition game_tick_with (hands : list (Frame float)) (now : float) : Game.Tick :=
  Game.mkTick (Hands hands) now now 0.25%float 0.75%float 1700000000000%Z None.

(* ================================================================== *)
(** * Words for runs of the two screens *)

(** The frame a round of the loop works on: the first hand the detector
    reported, normalised. *)
Definition seen (d : Detection) : option (Frame float) :=
  match d with
  | Hands (raw :: _) => Some (normalize raw)
  | _ => None
  end.

(** The detector's contract: every hand it reports has 21 landmarks. *)
Definition well_formed (d : Detection) : Prop :=
  match d with
  | DetectionFailed => True
  | Hands hands => Forall (fun raw => length raw = 21) hands
  end.

(** Guided screen: the tick sees the frame [f], inside the guide box. *)
Definition guided_in_box (t : Guided.Tick) (f : Frame float) : Prop :=
  seen (Guided.detection t) = Some f
  /\ Guided.isHandInBox f (Guided.width t) (Guided.height t) = true.

(** Guided screen: the tick sees a hand that is not inside the guide box. *)
Definition guided_out_of_box (t : Guided.Tick) : Prop :=
  exists f,
    seen (Guided.detection t) = Some f
    /\ Guided.isHandInBox f (Guided.width t) (Guided.height t) = false.


(** Guided screen: an input that respects the detector's contract. *)
Definition guided_well_formed (i : Guided.Input) : Prop :=
  match i with
  | Guided.Frame_tick t => well_formed (Guided.detection t)
  | _ => True
  end.

(** Guided screen: an input other than a rejected [addDoc]. *)
Definition guided_no_rejection (i : Guided.Input) : Prop :=
  match i with
  | Guided.Save_settled false => False
  | _ => True
  end.

(** Game screen: an input that respects the detector's contract. *)
Definition game_well_formed (i : Game.Input) : Prop :=
  match i with
  | Game.Frame_tick t => well_formed (Game.detection t)
  | _ => True
  end.

(** Game screen: the status set on a hit, and the call made by a save. *)
Definition is_hit (e : Game.Event) : bool :=
  match e with
  | Game.SetStatus Game.ShowOpenPalm => true
  | _ => false
  end.

Definition is_save (e : Game.Event) : bool :=
  match e with
  | Game.AddDoc _ => true
  | _ => false
  end.

(** Game screen: the moves between phases. *)
Inductive allowed : Game.Phase -> Game.Phase -> Prop :=
  | allowed_stay (p : Game.Phase) : allowed p p
  | allowed_start : allowed Game.idle Game.rules
  | allowed_play : allowed Game.rules Game.game
  | allowed_hit : allowed Game.game Game.postHit
  | allowed_over : allowed Game.game Game.finished
  | allowed_resume : allowed Game.postHit Game.game.

(** Game screen: the distance of the wrist to the target, as the hit test
    computes it. *)
Definition wrist_distance (wrist : Point float) (target : Game.Target) : float :=
  let dx := (px wrist - Game.tx target)%float in
  let dy := (py wrist - Game.ty target)%float in
  JsMath.sqrt (dx * dx + dy * dy).

(** A buffer whose second frame lacks a landmark. *)
Definition ragged_frames : list (Frame float) :=
  [[mkPoint 0.1%float 0.1%float 0%float; mkPoint 0.2%float 0.2%float 0%float];
   [mkPoint 0.3%float 0.3%float 0%float]].

(** A buffer whose second frame has a landmark too many. *)
Definition overlong_frames : list (Frame float) :=
  [[mkPoint 0.1%float 0.1%float 0%float];
   [mkPoint 0.3%float 0.3%float 0%float; mkPoint 0.2%float 0.2%float 0%float]].

(** Game screen: 1 while a post-hit hold is open, 0 otherwise. *)
Definition open_holds (p : Game.Phase) : nat :=
  match p with
  | Game.postHit => 1
  | _ => 0
  end.

(** Game screen: a frame that passed the open-palm test. *)
Definition open_palm (f : Frame float) : Prop := Game.isPalmOpen (Some f) = true.

(** Game screen: the phases of play, after the rules. *)
Definition in_play (p : Game.Phase) : Prop :=
  p = Game.game \/ p = Game.postHit \/ p = Game.finished.

(** Game screen: the seconds left that a tick in [game] displays. *)
Definition time_left (now : float) (st : Game.State) : float :=
  JsMath.max 0
    (JsMath.ceil ((Game.GAME_TIME - (now - Game.gameStart st)) / 1000)).

(* ================================================================== *)
(** * Order of binary64 numbers *)

Lemma SFcompare_antisym (x y : spec_float) :
  SFcompare y x = option_map CompOpp (SFcompare x y).
Proof.
  destruct x as [sx|sx| |sx mx ex], y as [sy|sy| |sy my ey]; simpl; try reflexivity;
    try (destruct sx; reflexivity); try (destruct sy; reflexivity);
    try (destruct sx, sy; reflexivity).
  destruct sx, sy; simpl; try reflexivity;
    rewrite (Z.compare_antisym ex ey); destruct (ex ?= ey)%Z; simpl; try reflexivity.
  - rewrite CompOpp_involutive. f_equal. exact (Pos.compare_cont_antisym my mx Eq).
  - f_equal. symmetry. exact (Pos.compare_cont_antisym mx my Eq).
Qed.

Lemma ltb_leb (x y : float) : (x <? y)%float = true -> (x <=? y)%float = true.
Proof.
  rewrite ltb_spec, leb_spec. unfold SFltb, SFleb.
  destruct (SFcompare (Prim2SF x) (Prim2SF y)) as [[]|]; congruence.
Qed.

Lemma ltb_not_leb (x y : float) : (x <? y)%float = true -> (y <=? x)%float = false.
Proof.
  rewrite ltb_spec, leb_spec. unfold SFltb, SFleb.
  rewrite (SFcompare_antisym (Prim2SF x) (Prim2SF y)).
  destruct (SFcompare (Prim2SF x) (Prim2SF y)) as [[]|]; simpl; congruence.
Qed.

(** Two numbers that [===] tells apart are different. *)
Lemma eqb_false_neq (x y : float) :
  (x =? x)%float = true -> (x =? y)%float = false -> x <> y.
Proof. intros Hx Hxy E. rewrite <- E in Hxy. congruence. Qed.

(* ================================================================== *)
(** * The averaging loop computes the per-landmark means *)

Section AveragingFacts.
Context {A : Type} `{Arith A}.

Lemma sum_step_None (i : nat) (frames : list (Frame A)) :
  fold_left (sum_step i) frames None = None.
Proof. induction frames as [|f fs IH]; simpl; auto. Qed.

Lemma sum_at_columns (i : nat) (frames : list (Frame A)) :
  Forall (fun f => i < length f) frames ->
  forall acc,
    fold_left (sum_step i) frames (Some acc)
    = Some (mkPoint (fold_left add (column (@px A) i frames) (px acc))
                    (fold_left add (column (@py A) i frames) (py acc))
                    (fold_left add (column (@pz A) i frames) (pz acc))).
Proof.
  induction 1 as [|f fs Hf _ IH]; intros acc; unfold column; cbn [fold_left flat_map sum_step].
  - destruct acc; reflexivity.
  - apply nth_error_Some in Hf.
    destruct (nth_error f i) as [p|]; [|congruence].
    rewrite IH. simpl. reflexivity.
Qed.

Lemma column_length (coord : Point A -> A) (i : nat) (frames : list (Frame A)) :
  Forall (fun f => i < length f) frames ->
  length (column coord i frames) = length frames.
Proof.
  induction 1 as [|f fs Hf _ IH]; simpl; auto.
  apply nth_error_Some in Hf.
  destruct (nth_error f i); [|congruence]. simpl. now rewrite IH.
Qed.

Lemma sum_at_mean (i : nat) (frames : list (Frame A)) :
  Forall (fun f => i < length f) frames ->
  exists sum,
    sum_at i frames = Some sum /\
    mkPoint (div (px sum) (of_nat (length frames)))
            (div (py sum) (of_nat (length frames)))
            (div (pz sum) (of_nat (length frames)))
    = mean_point i frames.
Proof.
  intros Hlen. unfold sum_at. rewrite (sum_at_columns Hlen).
  eexists. split; [reflexivity|].
  unfold mean_point, mean. simpl.
  now rewrite !(column_length _ Hlen).
Qed.

Lemma average_loop_means (frames : list (Frame A)) :
  forall todo i averaged,
    Forall (fun f => i + todo <= length f) frames ->
    average_loop frames todo i averaged
    = Some (averaged ++ map (fun j => mean_point j frames) (seq i todo)).
Proof.
  induction todo as [|todo IH]; intros i averaged Hlen; simpl.
  - now rewrite app_nil_r.
  - destruct (@sum_at_mean i frames) as (sum & Hsum & Hmean).
    { eapply Forall_impl; [|exact Hlen]. simpl. intros; lia. }
    rewrite Hsum, Hmean, IH.
    + now rewrite <- app_assoc.
    + eapply Forall_impl; [|exact Hlen]. simpl. intros; lia.
Qed.

(** On a non-empty buffer of frames of one length the loop never reads an
    absent landmark, and pushes the mean point of every index. *)
Lemma average_means (frames : list (Frame A)) (n : nat) :
  frames <> [] ->
  Forall (fun f => length f = n) frames ->
  average frames = Some (map (fun j => mean_point j frames) (seq 0 n)).
Proof.
  intros Hne Hlen. destruct frames as [|first rest]; [congruence|].
  unfold average. pose proof (Forall_inv Hlen) as Hfirst. simpl in Hfirst.
  rewrite Hfirst, average_loop_means; [reflexivity|].
  eapply Forall_impl; [|exact Hlen]. simpl. intros; lia.
Qed.

End AveragingFacts.

(** C2.  Embedding Aggregator postcondition: on a non-empty sequence of
    frames that all have [n] landmarks, the averaging loop of
    [saveEmbedding] (in whatever arithmetic it is run, binary64 included)
    returns one frame of [n] landmarks whose point at every index [i] has,
    for x, y and z, the arithmetic mean (the sum of the values divided by their
    number) of the input frames' values at index [i]. *)
Theorem average_is_arithmetic_mean {A : Type} `{Arith A}
    (frames : list (Frame A)) (n : nat) :
  frames <> [] ->
  Forall (fun f => length f = n) frames ->
  exists out,
    average frames = Some out /\
    length out = n /\
    forall i, i < n ->
      exists p,
        nth_error out i = Some p /\
        px p = mean (column (@px A) i frames) /\
        py p = mean (column (@py A) i frames) /\
        pz p = mean (column (@pz A) i frames) /\
        length (column (@px A) i frames) = length frames /\
        length (column (@py A) i frames) = length frames /\
        length (column (@pz A) i frames) = length frames.
Proof.
  intros Hne Hlen.
  exists (map (fun j => mean_point j frames) (seq 0 n)).
  split; [now apply average_means|].
  split; [now rewrite length_map, length_seq|].
  intros i Hi. exists (mean_point i frames).
  assert (Hcol : Forall (fun f => i < length f) frames).
  { eapply Forall_impl; [|exact Hlen]. simpl. intros; lia. }
  split.
  - rewrite nth_error_map, nth_error_seq.
    replace (i <? n)%nat with true by (symmetry; apply Nat.ltb_lt; exact Hi).
    reflexivity.
  - repeat split; auto using column_length.
Qed.

Lemma average_is_arithmetic_mean_witness :
  exists out, average frames_up = Some out /\ length out = 1.
Proof.
  destruct (@average_is_arithmetic_mean float _ frames_up 1)
    as (out & Hout & Hlen & _).
  - discriminate.
  - repeat constructor.
  - exists out. split; [exact Hout|exact Hlen].
Defined.

(* ================================================================== *)
(** * The averaging loop in exact arithmetic, and in binary64 *)

Lemma fold_left_Qcplus_perm (xs ys : list Qc) :
  Permutation xs ys ->
  forall acc, fold_left Qcplus xs acc = fold_left Qcplus ys acc.
Proof.
  induction 1 as [|x xs ys _ IH|x y xs|xs ys zs _ IH1 _ IH2]; intros acc; simpl.
  - reflexivity.
  - apply IH.
  - f_equal. ring.
  - now rewrite IH1, IH2.
Qed.

Lemma column_perm {A : Type} (coord : Point A -> A) (i : nat)
    (frames frames' : list (Frame A)) :
  Permutation frames frames' ->
  Permutation (column coord i frames) (column coord i frames').
Proof. intros HP. unfold column. now apply Permutation_flat_map. Qed.

Lemma mean_point_perm (i : nat) (frames frames' : list (Frame Qc)) :
  Permutation frames frames' ->
  mean_point i frames' = mean_point i frames.
Proof.
  intros HP. unfold mean_point, mean. simpl.
  rewrite !(fold_left_Qcplus_perm (column_perm _ i HP)).
  now rewrite !(Permutation_length (column_perm _ i HP)).
Qed.

Lemma average_perm_exact (frames frames' : list (Frame Qc)) (n : nat) :
  frames <> [] ->
  Forall (fun f => length f = n) frames ->
  Permutation frames frames' ->
  average frames' = average frames.
Proof.
  intros Hne Hlen HP.
  rewrite (average_means Hne Hlen).
  rewrite (@average_means _ _ frames' n).
  - f_equal. apply map_ext. intros j. now apply mean_point_perm.
  - intros E. subst frames'. apply Permutation_sym, Permutation_nil in HP. congruence.
  - eapply Permutation_Forall; eauto.
Qed.

Lemma of_nat_Qc_succ (m : nat) :
  of_nat (A:=Qc) (S m) = Qcplus (of_nat (A:=Qc) m) 1%Qc.
Proof.
  cbn [of_nat Qc_Arith]. apply Qc_is_canon. unfold Qcplus, Q2Qc. cbn [this].
  rewrite !Qred_correct, Nat2Z.inj_succ. unfold Z.succ.
  now rewrite inject_Z_plus.
Qed.

Lemma of_nat_Qc_nonzero (m : nat) : of_nat (A:=Qc) (S m) <> Q2Qc 0.
Proof.
  simpl. intros E. apply Q2Qc_eq_iff in E.
  unfold Qeq in E. simpl in E. lia.
Qed.

Lemma fold_left_Qcplus_repeat (x : Qc) (m : nat) :
  forall acc,
    fold_left Qcplus (repeat x m) acc = Qcplus acc (Qcmult (of_nat (A:=Qc) m) x).
Proof.
  induction m as [|m IH]; intros acc.
  - simpl. change (Q2Qc (inject_Z 0)) with (Q2Qc 0). ring.
  - cbn [repeat fold_left]. rewrite IH, of_nat_Qc_succ. ring.
Qed.

Lemma column_repeat {A : Type} (coord : Point A -> A) (i : nat)
    (f : Frame A) (p : Point A) (m : nat) :
  nth_error f i = Some p ->
  column coord i (repeat f m) = repeat (coord p) m.
Proof.
  intros Hp. induction m as [|m IH]; simpl; [reflexivity|].
  rewrite Hp. simpl. f_equal. exact IH.
Qed.

Lemma mean_repeat_exact (x : Qc) (k : nat) : mean (repeat x (S k)) = x.
Proof.
  unfold mean. rewrite fold_left_Qcplus_repeat, repeat_length.
  cbn [zero add div Qc_Arith].
  pose proof (@of_nat_Qc_nonzero k) as Hnz.
  set (N := of_nat (A:=Qc) (S k)) in *.
  field. exact Hnz.
Qed.

Lemma average_repeat_exact (f : Frame Qc) (k : nat) :
  average (repeat f (S k)) = Some f.
Proof.
  rewrite (@average_means _ _ (repeat f (S k)) (length f)).
  - apply f_equal. apply nth_error_ext. intros i.
    rewrite nth_error_map, nth_error_seq.
    destruct (Nat.ltb_spec i (length f)) as [Hi|Hi].
    + cbn [option_map Nat.add]. apply nth_error_Some in Hi.
      destruct (nth_error f i) as [p|] eqn:Hp; [|congruence].
      f_equal. unfold mean_point.
      rewrite !(@column_repeat _ _ _ _ _ _ Hp), !mean_repeat_exact.
      now destruct p.
    + simpl. symmetry. now apply nth_error_None.
  - discriminate.
  - apply Forall_forall. intros g Hg. apply repeat_spec in Hg. now subst.
Qed.

Lemma frame_eqb_false_neq (a b : option (Frame float)) :
  frame_eqb a a = true -> frame_eqb a b = false -> a <> b.
Proof. intros Ha Hab E. rewrite <- E in Hab. congruence. Qed.

(** C7, as stated, fails in the arithmetic the program runs: three copies
    of the constant frame do not aggregate to the constant frame (z comes
    out as 0.10000000000000002), and reversing the order of three frames
    changes the aggregate (0.20000000000000004 against 0.19999999999999998). *)
Lemma average_binary64_not_exact :
  average (repeat constant_frame 3) <> Some constant_frame
  /\ Permutation frames_up (rev frames_up)
  /\ average (rev frames_up) <> average frames_up.
Proof.
  split; [|split].
  - apply frame_eqb_false_neq; vm_compute; reflexivity.
  - apply Permutation_rev.
  - apply frame_eqb_false_neq; vm_compute; reflexivity.
Qed.

(** C7, amended.  Run in exact arithmetic (the rationals), the averaging
    loop of [saveEmbedding] is invariant under any permutation of a non-empty
    buffer of equal-length frames, and aggregating N >= 1 copies of one frame
    returns that frame, the constant frame x = 0.3, y = 0.4, z = 0.1 included.
    In binary64 the constant frame is returned unchanged for N = 1, 2, 4
    and 5 copies. *)
Theorem average_exact_permutation_and_copies :
  (forall (frames frames' : list (Frame Qc)) (n : nat),
      frames <> [] ->
      Forall (fun f => length f = n) frames ->
      Permutation frames frames' ->
      average frames' = average frames)
  /\ (forall (f : Frame Qc) (k : nat), average (repeat f (S k)) = Some f)
  /\ (forall k : nat,
        average (repeat constant_frame_exact (S k)) = Some constant_frame_exact)
  /\ (forall N : nat, In N [1; 2; 4; 5] ->
        average (repeat constant_frame N) = Some constant_frame).
Proof.
  split; [|split; [|split]].
  - intros frames frames' n. apply average_perm_exact.
  - apply average_repeat_exact.
  - intros k. apply average_repeat_exact.
  - intros N HN. simpl in HN.
    destruct HN as [<-|[<-|[<-|[<-|[]]]]]; vm_compute; reflexivity.
Qed.

Lemma average_exact_permutation_and_copies_witness :
  average [frame_high; frame_low] = average [frame_low; frame_high].
Proof.
  apply (proj1 average_exact_permutation_and_copies
           [frame_low; frame_high] [frame_high; frame_low] 1).
  - discriminate.
  - repeat constructor.
  - apply perm_swap.
Defined.

(* ================================================================== *)
(** * The two evaluators *)

Lemma in_square_test (width height : float) (lm : Point float) :
  in_square width height lm <->
  (let cx := (width / 2)%float in
   let cy := (height / 2)%float in
   let size := (JsMath.min width height * Guided.GUIDE_BOX_RATIO)%float in
   let x := (px lm * width)%float in
   let y := (py lm * height)%float in
   (cx - size / 2 <=? x)%float && (x <=? cx + size / 2)%float
   && (cy - size / 2 <=? y)%float && (y <=? cy + size / 2)%float) = true.
Proof.
  unfold in_square, square_side, Guided.GUIDE_BOX_RATIO. cbv zeta.
  rewrite !andb_true_iff. tauto.
Qed.

(** C5.  Region Evaluator: for every hand frame (of 21 landmarks or of
    any other length) and every frame width and height, [isHandInBox] is
    true exactly when every landmark's pixel projection (x*width, y*height)
    lies inside or on the boundary of the centered square of side
    min(width, height) * 0.6, and it is false whenever some landmark lies
    strictly outside that square. *)
Theorem isHandInBox_all_in_square (landmarks : Frame float) (width height : float) :
  (Guided.isHandInBox landmarks width height = true
   <-> Forall (in_square width height) landmarks)
  /\ (Exists (strictly_outside width height) landmarks ->
      Guided.isHandInBox landmarks width height = false).
Proof.
  assert (Hiff : Guided.isHandInBox landmarks width height = true
                 <-> Forall (in_square width height) landmarks).
  { unfold Guided.isHandInBox. cbv zeta. rewrite forallb_forall, Forall_forall.
    split; intros Hall lm Hin.
    - apply in_square_test. exact (Hall lm Hin).
    - apply in_square_test. exact (Hall lm Hin). }
  split; [exact Hiff|].
  intros Hex. apply not_true_is_false. intros Htrue.
  apply Hiff in Htrue. rewrite Forall_forall in Htrue.
  apply Exists_exists in Hex. destruct Hex as (lm & Hin & Hout).
  destruct (Htrue lm Hin) as (H1 & H2 & H3 & H4).
  destruct Hout as [Ho|[Ho|[Ho|Ho]]]; apply ltb_not_leb in Ho; congruence.
Qed.

Lemma isHandInBox_all_in_square_witness :
  Guided.isHandInBox hand_with_wrist_out 640%float 480%float = false.
Proof.
  apply (proj2 (isHandInBox_all_in_square hand_with_wrist_out 640%float 480%float)).
  apply Exists_cons_hd. left. vm_compute. reflexivity.
Defined.

(** C4.  Palm-Openness Evaluator: an absent argument and a frame of fewer
    than 21 landmarks give false; on a frame of at least 21 landmarks the
    landmarks 4, 8, 12, 16 and 20 exist and the result is the test
    |x8 - x20| + |x4 - x8| + |x12 - x16| > 0.15 on their x coordinates; and
    equal arguments give equal results. *)
Theorem isPalmOpen_spread_test (landmarks : option (Frame float)) :
  (landmarks = None -> Game.isPalmOpen landmarks = false)
  /\ (forall l, landmarks = Some l -> length l < 21 ->
        Game.isPalmOpen landmarks = false)
  /\ (forall l, landmarks = Some l -> 21 <= length l ->
        exists p4 p8 p12 p16 p20,
          nth_error l 4 = Some p4 /\ nth_error l 8 = Some p8
          /\ nth_error l 12 = Some p12 /\ nth_error l 16 = Some p16
          /\ nth_error l 20 = Some p20
          /\ Game.isPalmOpen landmarks
             = (0.15 <? JsMath.abs (px p8 - px p20)
                        + JsMath.abs (px p4 - px p8)
                        + JsMath.abs (px p12 - px p16))%float)
  /\ (forall landmarks', landmarks' = landmarks ->
        Game.isPalmOpen landmarks' = Game.isPalmOpen landmarks).
Proof.
  split; [|split; [|split]].
  - intros ->. reflexivity.
  - intros l -> Hlen. unfold Game.isPalmOpen.
    apply Nat.ltb_lt in Hlen. now rewrite Hlen.
  - intros l -> Hlen. unfold Game.isPalmOpen.
    replace (length l <? 21) with false by (symmetry; apply Nat.ltb_ge; exact Hlen).
    assert (Hat : forall i, i < 21 -> exists p, nth_error l i = Some p).
    { intros i Hi. destruct (nth_error l i) as [p|] eqn:E; [eauto|].
      apply nth_error_None in E. lia. }
    destruct (Hat 4) as (p4 & E4); [lia|].
    destruct (Hat 8) as (p8 & E8); [lia|].
    destruct (Hat 12) as (p12 & E12); [lia|].
    destruct (Hat 16) as (p16 & E16); [lia|].
    destruct (Hat 20) as (p20 & E20); [lia|].
    exists p4, p8, p12, p16, p20. rewrite E4, E8, E12, E16, E20.
    repeat split; reflexivity.
  - intros landmarks' ->. reflexivity.
Qed.

Lemma isPalmOpen_spread_test_witness :
  Game.isPalmOpen (Some open_hand) = true
  /\ Game.isPalmOpen (Some (firstn 20 open_hand)) = false.
Proof.
  split.
  - destruct (proj1 (proj2 (proj2 (isPalmOpen_spread_test (Some open_hand))))
                open_hand eq_refl) as (p4 & p8 & p12 & p16 & p20 & E4 & E8 & E12 & E16 & E20 & ->).
    + apply Nat.leb_le. vm_compute. reflexivity.
    + vm_compute in E4, E8, E12, E16, E20.
      injection E4 as <-. injection E8 as <-. injection E12 as <-.
      injection E16 as <-. injection E20 as <-.
      vm_compute. reflexivity.
  - apply (proj1 (proj2 (isPalmOpen_spread_test (Some (firstn 20 open_hand))))
             (firstn 20 open_hand) eq_refl).
    apply Nat.ltb_lt. vm_compute. reflexivity.
Defined.

(** The buffer with the tick's frame appended is never empty, and on frames
    of one length its average exists. *)
Lemma average_buffer_and_frame (buffer : list (Frame float)) (raw : Frame float) :
  Forall (fun f => length f = length raw) buffer ->
  exists first rest averaged,
    buffer ++ [normalize raw] = first :: rest
    /\ average (buffer ++ [normalize raw]) = Some averaged.
Proof.
  intros Hlen.
  assert (Hne : buffer ++ [normalize raw] <> []).
  { intros E. apply app_eq_nil in E. destruct E as [_ E]. discriminate E. }
  assert (Hall : Forall (fun f => length f = length raw) (buffer ++ [normalize raw])).
  { apply Forall_app. split; [exact Hlen|].
    constructor; [|constructor]. unfold normalize. apply length_map. }
  rewrite (average_means Hne Hall).
  destruct (buffer ++ [normalize raw]) as [|first rest] eqn:E; [congruence|].
  eauto.
Qed.

(* ================================================================== *)
(** * The guided capture screen: phase timing *)

Module GuidedFacts.
Import Guided.

(** C1.  Guided-variant phase timing: on a tick whose hand frame is inside
    the guide box, [action] becomes [hold] exactly when
    elapsed = now - phaseStart is at least 4000 ms (below 4000 it stays
    [action]), and then the phase clock is reset to now, the hold buffer
    is emptied and progress is 0; [hold] becomes [done] exactly when
    elapsed is at least 5000 ms (below 5000 it stays [hold]), and then
    progress is set to 1 and, after that, the buffer (of frames of one
    length) is averaged and the record is given to [addDoc]. *)
Theorem guided_phase_timing (t : Tick) (raw : Frame float)
    (others : list (Frame float)) (st : State) :
  detection t = Hands (raw :: others) ->
  isHandInBox (normalize raw) (width t) (height t) = true ->
  let elapsed := (now t - phaseStart st)%float in
  let st' := detectLoop t st in
  (phase st = action ->
     (phase st' = hold <-> (ACTION_TIME <=? elapsed)%float = true)
     /\ ((elapsed <? ACTION_TIME)%float = true -> phase st' = action)
     /\ ((ACTION_TIME <=? elapsed)%float = true ->
           phaseStart st' = now t /\ holdFrames st' = []
           /\ progress st' = 0%float)
     /\ ((ACTION_TIME <=? elapsed)%float = false ->
           phase st' = action /\ phaseStart st' = phaseStart st
           /\ holdFrames st' = holdFrames st
           /\ progress st' = JsMath.min (elapsed / ACTION_TIME) 1))
  /\ (phase st = hold ->
        (phase st' = done <-> (HOLD_TIME <=? elapsed)%float = true)
        /\ ((elapsed <? HOLD_TIME)%float = true -> phase st' = hold)
        /\ ((HOLD_TIME <=? elapsed)%float = false ->
              phase st' = hold /\ phaseStart st' = phaseStart st
              /\ holdFrames st' = holdFrames st ++ [normalize raw]
              /\ progress st' = JsMath.min (elapsed / HOLD_TIME) 1)
        /\ ((HOLD_TIME <=? elapsed)%float = true ->
              Forall (fun f => length f = length raw) (holdFrames st) ->
              exists averaged,
                average (holdFrames st ++ [normalize raw]) = Some averaged
                /\ progress st' = 1%float
                /\ trace st'
                   = trace st
                     ++ [SetProgress (JsMath.min (elapsed / HOLD_TIME) 1);
                         SetStatus
                           (HoldPercent
                              (JsMath.floor
                                 (JsMath.min (elapsed / HOLD_TIME * 100) 100)));
                         SetProgress 1%float;
                         SetStatus SavingEmbedding;
                         AddDoc (mkRecord averaged (wall t) (userId_of (uid t)))])).
Proof.
  intros Hdet Hbox elapsed st'.
  assert (Hst' : st' = handleHand (normalize raw) (width t) (height t) (now t)
                         (wall t) (uid t) st).
  { unfold st', detectLoop. now rewrite Hdet. }
  unfold handleHand in Hst'. rewrite Hbox in Hst'. cbn [negb] in Hst'.
  fold elapsed in Hst'.
  split; intros Hphase; rewrite Hphase in Hst'.
  - destruct (ACTION_TIME <=? elapsed)%float eqn:Hge; subst st'; rewrite Hst'.
    + repeat split; auto; try discriminate.
      intros Hlt. apply ltb_not_leb in Hlt. congruence.
    + cbn. rewrite Hphase. repeat split; auto; try discriminate.
  - destruct (HOLD_TIME <=? elapsed)%float eqn:Hge; subst st'; rewrite Hst'.
    + split; [|split; [|split]].
      * split; [reflexivity|intros _].
        unfold saveEmbedding. cbn [holdFrames set_phase setStatus setProgress set_holdFrames].
        destruct (holdFrames st ++ [normalize raw]) as [|first rest] eqn:E.
        { apply app_eq_nil in E. destruct E as [_ E]. discriminate E. }
        destruct (average (first :: rest)); reflexivity.
      * intros Hlt. apply ltb_not_leb in Hlt. congruence.
      * discriminate.
      * intros _ Hlen.
        destruct (@average_buffer_and_frame _ _ Hlen) as (first & rest & averaged & E & Havg).
        exists averaged. split; [exact Havg|].
        unfold saveEmbedding. cbn [holdFrames set_phase setStatus setProgress set_holdFrames].
        rewrite Havg, E.
        cbn. rewrite <- !app_assoc. split; reflexivity.
    + cbn. rewrite Hphase. repeat split; auto; try discriminate.
Qed.

Lemma guided_phase_timing_witness :
  phase (detectLoop (guided_tick_at 5000%float) guided_holding) = done
  /\ phase (detectLoop (guided_tick_at 4999%float) guided_holding) = hold.
Proof.
  split.
  - apply (proj2 (guided_phase_timing (guided_tick_at 5000%float) (others := []) guided_holding
                    eq_refl eq_refl) eq_refl).
    vm_compute. reflexivity.
  - apply (proj2 (guided_phase_timing (guided_tick_at 4999%float) (others := []) guided_holding
                    eq_refl eq_refl) eq_refl).
    vm_compute. reflexivity.
Defined.

End GuidedFacts.

(* ================================================================== *)
(** * The game screen: post-hit hold, game over, hand absence *)

Lemma clamp_nonneg (p : float) : nonneg p -> clamp p 0 1 = JsMath.min p 1.
Proof.
  intros Hp.
  assert (Hmax : JsMath.max 0 p = p).
  { unfold JsMath.max. destruct Hp as [Hpos| ->].
    - now rewrite Hpos.
    - vm_compute. reflexivity. }
  unfold clamp, JsMath.min.
  destruct (p <? 1)%float; [exact Hmax|].
  destruct (1 <? p)%float; [vm_compute; reflexivity|].
  destruct (p =? 1)%float; [|vm_compute; reflexivity].
  destruct (JsMath.is_neg_zero p); [exact Hmax|vm_compute; reflexivity].
Qed.

Module GameFacts.
Import Game.

(** Two states with the same fields are the same state. *)
Lemma State_ext (a b : State) :
  phase a = phase b -> phaseStart a = phaseStart b ->
  holdFrames a = holdFrames b -> gameStart a = gameStart b ->
  status a = status b -> progress a = progress b -> score a = score b ->
  target a = target b -> rulesCountdown a = rulesCountdown b ->
  gameTimeLeft a = gameTimeLeft b -> trace a = trace b ->
  a = b.
Proof. destruct a, b; cbn; intros; subst; reflexivity. Qed.

(** What a completed hold does, whatever happened before it. *)
Lemma postHit_completes (landmarks : Frame float) (now : float) (wall : Z)
    (uid : option string) (st : State) (first : Frame float)
    (rest : list (Frame float)) (averaged : Frame float) :
  isPalmOpen (Some landmarks) = true ->
  (ACTION_HOLD_TIME <=? now - phaseStart st)%float = true ->
  holdFrames st ++ [landmarks] = first :: rest ->
  average (holdFrames st ++ [landmarks]) = Some averaged ->
  updatePostHitPhase landmarks now wall uid st
  = mkState game now [] (gameStart st) BackToGame 0%float (score st) (target st)
      (rulesCountdown st) (gameTimeLeft st)
      (trace st
       ++ [SetProgress (JsMath.min ((now - phaseStart st) / ACTION_HOLD_TIME) 1);
           AddDoc (mkRecord averaged wall (userId_of uid));
           SetProgress 0%float;
           SetStatus BackToGame]).
Proof.
  intros Hopen Hge E Havg.
  unfold updatePostHitPhase. rewrite Hopen. cbn [negb].
  cbn [phaseStart set_holdFrames]. rewrite Hge.
  unfold saveEmbedding. cbn [holdFrames setProgress set_holdFrames].
  rewrite Havg, E.
  apply State_ext;
    cbn [phase phaseStart holdFrames gameStart status progress score target
         rulesCountdown gameTimeLeft trace
         set_holdFrames setStatus setProgress set_phaseStart set_phase emit];
    try reflexivity.
  now rewrite <- !app_assoc.
Qed.

(** C3.  Game-variant postHit behaviour: on a tick in [postHit] with a
    detected hand, a palm that is not open resets the phase clock to now,
    empties the hold buffer, sets progress to 0 and leaves the phase
    [postHit]; an open palm appends the frame to the buffer and sets
    progress to clamp(elapsed / 5000, 0, 1), elapsed / 5000 being
    non-negative as under a monotonic clock; and when elapsed is at least
    5000 ms the buffer (of frames of one length) is averaged and given to
    [addDoc], and the phase goes back to [game] with the phase clock at
    now, progress 0 and the buffer empty, score and target unchanged. *)
Theorem postHit_behaviour (isMobile : bool) (t : Tick) (raw : Frame float)
    (others : list (Frame float)) (st : State) :
  detection t = Hands (raw :: others) ->
  phase st = postHit ->
  let landmarks := normalize raw in
  let elapsed := (now t - phaseStart st)%float in
  let st' := detectLoop isMobile t st in
  (isPalmOpen (Some landmarks) = false ->
     phase st' = postHit /\ phaseStart st' = now t /\ holdFrames st' = []
     /\ progress st' = 0%float /\ score st' = score st /\ target st' = target st)
  /\ (isPalmOpen (Some landmarks) = true ->
      nonneg (elapsed / ACTION_HOLD_TIME) ->
      ((ACTION_HOLD_TIME <=? elapsed)%float = false ->
         phase st' = postHit /\ phaseStart st' = phaseStart st
         /\ holdFrames st' = holdFrames st ++ [landmarks]
         /\ progress st' = clamp (elapsed / ACTION_HOLD_TIME) 0 1
         /\ score st' = score st /\ target st' = target st)
      /\ ((ACTION_HOLD_TIME <=? elapsed)%float = true ->
          Forall (fun f => length f = length raw) (holdFrames st) ->
          exists averaged,
            average (holdFrames st ++ [landmarks]) = Some averaged
            /\ trace st'
               = trace st
                 ++ [SetProgress (clamp (elapsed / ACTION_HOLD_TIME) 0 1);
                     AddDoc (mkRecord averaged (wall t) (userId_of (uid t)));
                     SetProgress 0%float;
                     SetStatus BackToGame]
            /\ phase st' = game /\ phaseStart st' = now t
            /\ progress st' = 0%float /\ holdFrames st' = []
            /\ score st' = score st /\ target st' = target st)).
Proof.
  intros Hdet Hphase landmarks elapsed st'.
  assert (Hst' : st' = updatePostHitPhase landmarks (now t) (wall t) (uid t) st).
  { unfold st', detectLoop. now rewrite Hdet, Hphase. }
  split.
  - intros Hclosed. rewrite Hst'. unfold updatePostHitPhase.
    rewrite Hclosed. cbn. rewrite Hphase. repeat split; reflexivity.
  - intros Hopen Hnonneg. rewrite (clamp_nonneg Hnonneg). split.
    + intros Hlt. rewrite Hst'. unfold updatePostHitPhase.
      rewrite Hopen. cbn [negb phaseStart set_holdFrames].
      fold elapsed. rewrite Hlt. cbn. rewrite Hphase. repeat split; reflexivity.
    + intros Hge Hlen.
      destruct (@average_buffer_and_frame _ _ Hlen) as (first & rest & averaged & E & Havg).
      exists averaged. split; [exact Havg|].
      rewrite Hst'.
      rewrite (@postHit_completes landmarks (now t) (wall t) (uid t) st
                 first rest averaged Hopen Hge E Havg).
      cbn. repeat split; reflexivity.
Qed.

Lemma postHit_behaviour_witness :
  phase (detectLoop false (game_tick_with [open_hand] 6000%float) game_after_hit) = game
  /\ phase (detectLoop false (game_tick_with [centred_hand] 6000%float) game_after_hit)
     = postHit.
Proof.
  split.
  - destruct (proj2 (postHit_behaviour false (game_tick_with [open_hand] 6000%float)
                       (others := []) game_after_hit eq_refl eq_refl))
      as [_ Hdone].
    + vm_compute. reflexivity.
    + left. vm_compute. reflexivity.
    + destruct Hdone as (averaged & _ & _ & Hphase & _).
      * vm_compute. reflexivity.
      * constructor.
      * exact Hphase.
  - apply (proj1 (postHit_behaviour false (game_tick_with [centred_hand] 6000%float)
                    (others := []) game_after_hit eq_refl eq_refl)).
    vm_compute. reflexivity.
Defined.

(** Nothing moves a finished game: no tick, click or settled save. *)
Lemma finished_step (isMobile : bool) (i : Input) (st : State) :
  phase st = finished ->
  phase (step isMobile i st) = finished
  /\ score (step isMobile i st) = score st
  /\ target (step isMobile i st) = target st.
Proof.
  intros Hphase. destruct i as [t|now|fulfilled]; cbn [step].
  - unfold detectLoop. rewrite Hphase.
    destruct (detection t) as [|[|raw others]]; cbn; auto.
  - unfold onClick. rewrite Hphase. auto.
  - unfold saveEmbedding_settled. destruct fulfilled; cbn; auto.
Qed.

Lemma finished_run (isMobile : bool) (inputs : list Input) :
  forall st,
    phase st = finished ->
    phase (run isMobile inputs st) = finished
    /\ score (run isMobile inputs st) = score st
    /\ target (run isMobile inputs st) = target st.
Proof.
  induction inputs as [|i inputs IH]; intros st Hphase; [cbn; auto|].
  destruct (finished_step isMobile i st Hphase) as (Hp & Hs & Ht).
  destruct (IH _ Hp) as (Hp' & Hs' & Ht').
  unfold run in *. cbn [fold_left]. rewrite Hp', Hs', Ht'. auto.
Qed.

(** C6.  Game-variant game-over rule: on a tick in [game] with a detected
    hand, when the game time elapsed since the game-start clock exceeds
    60000 ms the phase becomes [finished] before any hit test: wherever the
    wrist is, the score, the target, the phase clock and the hold buffer
    are unchanged (the code's test is elapsed >= 60000, so the phase
    becomes [finished] on exactly those ticks); and from [finished] no
    tick, click or settled save changes the phase, the score or the
    target. *)
Theorem game_over_before_hit_test (isMobile : bool) (t : Tick) (raw : Frame float)
    (others : list (Frame float)) (st : State) :
  detection t = Hands (raw :: others) ->
  phase st = game ->
  let elapsed := (now t - gameStart st)%float in
  let st' := detectLoop isMobile t st in
  ((GAME_TIME <? elapsed)%float = true ->
     phase st' = finished /\ score st' = score st /\ target st' = target st
     /\ phaseStart st' = phaseStart st /\ holdFrames st' = holdFrames st
     /\ progress st' = progress st /\ gameStart st' = gameStart st)
  /\ (phase st' = finished <-> (GAME_TIME <=? elapsed)%float = true)
  /\ (forall inputs s,
        phase s = finished ->
        phase (run isMobile inputs s) = finished
        /\ score (run isMobile inputs s) = score s
        /\ target (run isMobile inputs s) = target s).
Proof.
  intros Hdet Hphase elapsed st'.
  assert (Hst' : st' = updateGamePhase isMobile (nth_error (normalize raw) 0)
                         (now t) (now' t) (random_x t) (random_y t) st).
  { unfold st', detectLoop. now rewrite Hdet, Hphase. }
  unfold updateGamePhase in Hst'. fold elapsed in Hst'.
  split; [|split].
  - intros Hgt. apply ltb_leb in Hgt. rewrite Hgt in Hst'.
    rewrite Hst'. cbn. repeat split; reflexivity.
  - destruct (GAME_TIME <=? elapsed)%float eqn:Hge; rewrite Hst'.
    + cbn. split; reflexivity.
    + split; [|discriminate].
      destruct (nth_error (normalize raw) 0) as [wrist|]; cbn.
      * match goal with
        | |- context [if ?c then _ else _] => destruct c
        end; cbn; rewrite ?Hphase; discriminate.
      * rewrite Hphase. discriminate.
  - intros inputs s. apply finished_run.
Qed.

Lemma game_over_before_hit_test_witness :
  phase (detectLoop false (game_tick_with [centred_hand] 60501%float) game_playing) = finished
  /\ score (detectLoop false (game_tick_with [centred_hand] 60501%float) game_playing)
     = score game_playing.
Proof.
  destruct (game_over_before_hit_test false (game_tick_with [centred_hand] 60501%float)
              (others := []) game_playing eq_refl eq_refl) as (Hover & _ & _).
  destruct Hover as (Hphase & Hscore & _).
  - vm_compute. reflexivity.
  - split; [exact Hphase|exact Hscore].
Defined.

Lemma no_hand_run (isMobile : bool) (gap : list Tick) :
  Forall no_hand gap ->
  forall st,
    phase st <> rules ->
    run isMobile (map Frame_tick gap) st = st.
Proof.
  induction 1 as [|t gap Ht _ IH]; intros st Hphase; [reflexivity|].
  unfold run in *. cbn [map fold_left step].
  assert (E : detectLoop isMobile t st = st).
  { unfold detectLoop. rewrite Ht. destruct (phase st); congruence. }
  rewrite E. now apply IH.
Qed.

(** C10.  Game-variant hand absence: a tick with no detected hand in
    [game], [postHit] or [finished] changes nothing at all (phase, phase
    clock, game-start clock, hold buffer, score, target, progress and the
    log of calls); in [rules] it only sets the displayed countdown to 7.
    So the post-hit hold timer keeps running across a gap without hand:
    after any such gap, the first open-palm frame at 5000 ms or more since
    the phase clock completes the hold, the buffer with that frame is
    averaged and given to [addDoc], and the phase is [game]. *)
Theorem hand_absence_changes_nothing (isMobile : bool) (t : Tick) (st : State) :
  no_hand t ->
  (phase st = game \/ phase st = postHit \/ phase st = finished ->
     detectLoop isMobile t st = st)
  /\ (phase st = rules ->
        detectLoop isMobile t st
        = mkState rules (phaseStart st) (holdFrames st) (gameStart st) (status st)
            (progress st) (score st) (target st) 7%float (gameTimeLeft st)
            (trace st))
  /\ (forall (gap : list Tick) (t' : Tick) (raw : Frame float)
             (others : list (Frame float)),
        phase st = postHit ->
        Forall no_hand gap ->
        detection t' = Hands (raw :: others) ->
        isPalmOpen (Some (normalize raw)) = true ->
        (ACTION_HOLD_TIME <=? now t' - phaseStart st)%float = true ->
        Forall (fun f => length f = length raw) (holdFrames st) ->
        exists averaged,
          average (holdFrames st ++ [normalize raw]) = Some averaged
          /\ run isMobile (map Frame_tick (gap ++ [t'])) st
             = mkState game (now t') [] (gameStart st) BackToGame 0%float
                 (score st) (target st) (rulesCountdown st) (gameTimeLeft st)
                 (trace st
                  ++ [SetProgress
                        (JsMath.min ((now t' - phaseStart st) / ACTION_HOLD_TIME) 1);
                      AddDoc (mkRecord averaged (wall t') (userId_of (uid t')));
                      SetProgress 0%float;
                      SetStatus BackToGame])).
Proof.
  intros Ht. unfold no_hand in Ht. split; [|split].
  - intros Hphase. unfold detectLoop. rewrite Ht.
    destruct Hphase as [-> |[-> | ->]]; reflexivity.
  - intros Hphase. unfold detectLoop. rewrite Ht, Hphase.
    unfold setRulesCountdown. now rewrite Hphase.
  - intros gap t' raw others Hphase Hgap Hdet Hopen Hge Hlen.
    destruct (@average_buffer_and_frame _ _ Hlen) as (first & rest & averaged & E & Havg).
    exists averaged. split; [exact Havg|].
    rewrite map_app. unfold run. rewrite fold_left_app.
    fold (run isMobile (map Frame_tick gap) st).
    rewrite (no_hand_run isMobile Hgap) by congruence.
    cbn [map fold_left step]. unfold detectLoop. rewrite Hdet, Hphase.
    apply (@postHit_completes (normalize raw) (now t') (wall t') (uid t') st
             first rest averaged Hopen Hge E Havg).
Qed.

Lemma hand_absence_changes_nothing_witness :
  detectLoop false (game_tick_with [] 3000%float) game_after_hit = game_after_hit
  /\ phase (run false (map Frame_tick
                         [game_tick_with [] 3000%float; game_tick_with [] 5000%float;
                          game_tick_with [open_hand] 6000%float]) game_after_hit)
     = game.
Proof.
  destruct (hand_absence_changes_nothing false (t := game_tick_with [] 3000%float)
              game_after_hit eq_refl) as (Hsame & _ & Hgap).
  split.
  - apply Hsame. right. left. reflexivity.
  - destruct (Hgap [game_tick_with [] 3000%float; game_tick_with [] 5000%float]
                (game_tick_with [open_hand] 6000%float) open_hand [])
      as (averaged & _ & Hrun).
    + reflexivity.
    + repeat constructor.
    + reflexivity.
    + vm_compute. reflexivity.
    + vm_compute. reflexivity.
    + constructor.
    + cbn [app] in Hrun. rewrite Hrun. reflexivity.
Defined.

End GameFacts.

(* ================================================================== *)
(** * Saving: the empty buffer and the rejected append *)

(** C8, as stated, fails on the game screen: its [saveEmbedding], called
    with an empty hold buffer, returns without a word.  No status is set, and
    the phase stays what it was. *)
Lemma game_empty_save_is_silent :
  Game.holdFrames game_after_hit = []
  /\ (forall s, ~ In (Game.SetStatus s)
                    (Game.trace (Game.saveEmbedding 1700000000000%Z None game_after_hit)))
  /\ Game.status (Game.saveEmbedding 1700000000000%Z None game_after_hit)
     = Game.status game_after_hit
  /\ Game.phase (Game.saveEmbedding 1700000000000%Z None game_after_hit)
     = Game.postHit.
Proof.
  split; [reflexivity|]. split; [|split; reflexivity].
  intros s Hin. exact Hin.
Qed.

(** C8, amended.  On both screens a save called with an empty hold buffer
    is abandoned at the guard: nothing is averaged, nothing is given to
    [addDoc] and nothing is thrown.  The guided screen then shows
    "No hand detected. Try again", sets the phase to [action] and progress to
    0; the game screen returns with no message and no change of state. *)
Theorem empty_buffer_save_is_abandoned :
  (forall (wall : Z) (uid : option string) (st : Guided.State),
      Guided.holdFrames st = [] ->
      Guided.saveEmbedding wall uid st
      = Guided.mkState Guided.action (Guided.phaseStart st) []
          Guided.NoHandTryAgain 0%float
          (Guided.trace st
           ++ [Guided.SetStatus Guided.NoHandTryAgain; Guided.SetProgress 0%float]))
  /\ (forall (wall : Z) (uid : option string) (st : Game.State),
        Game.holdFrames st = [] ->
        Game.saveEmbedding wall uid st = st).
Proof.
  split; intros wall uid st Hempty.
  - unfold Guided.saveEmbedding. rewrite Hempty.
    unfold Guided.setProgress, Guided.set_phase, Guided.setStatus. cbn.
    now rewrite Hempty, <- app_assoc.
  - unfold Game.saveEmbedding. now rewrite Hempty.
Qed.

Lemma empty_buffer_save_is_abandoned_witness :
  Guided.phase (Guided.saveEmbedding 1700000000000%Z None Guided.initial)
  = Guided.action
  /\ Game.saveEmbedding 1700000000000%Z None game_after_hit = game_after_hit.
Proof.
  split.
  - rewrite (proj1 empty_buffer_save_is_abandoned 1700000000000%Z None
               Guided.initial eq_refl).
    reflexivity.
  - apply (proj2 empty_buffer_save_is_abandoned 1700000000000%Z None
             game_after_hit eq_refl).
Defined.

(** C9 against the code.  On the game screen a rejected [addDoc] is caught:
    one [console.error], and nothing else changes.  On the guided screen
    nothing catches it: the promise of [saveEmbedding] rejects, neither the
    status, the confetti nor the timer that re-arms the phase is reached, and
    the phase stays [done] on every later tick that sees a hand, whereas after
    a fulfilled [addDoc] the timer is set and its callback re-arms [action]
    with an empty buffer and progress 0. *)
Theorem guided_rejected_save_never_rearms :
  (forall st : Game.State,
      Game.saveEmbedding_settled false st = Game.emit Game.ConsoleError st)
  /\ (forall st : Guided.State,
        Guided.saveEmbedding_settled false st
        = Guided.emit Guided.UnhandledRejection st)
  /\ (forall (t : Guided.Tick) (raw : Frame float) (others : list (Frame float))
             (st : Guided.State),
        Guided.detection t = Hands (raw :: others) ->
        Guided.phase st = Guided.done ->
        Guided.phase (Guided.detectLoop t st) = Guided.done)
  /\ (let saving := Guided.detectLoop (guided_tick_at 5000%float) guided_holding in
      let failed := Guided.saveEmbedding_settled false saving in
      let saved := Guided.saveEmbedding_settled true saving in
      Guided.phase saving = Guided.done
      /\ Guided.phase failed = Guided.done
      /\ Guided.status failed = Guided.SavingEmbedding
      /\ ~ In (Guided.SetTimeout 3000%float) (Guided.trace failed)
      /\ Guided.phase (Guided.detectLoop (guided_tick_at 9000%float) failed)
         = Guided.done
      /\ In (Guided.SetTimeout 3000%float) (Guided.trace saved)
      /\ Guided.phase (Guided.onTimeout saved) = Guided.action
      /\ Guided.holdFrames (Guided.onTimeout saved) = []
      /\ Guided.progress (Guided.onTimeout saved) = 0%float).
Proof.
  split; [reflexivity|]. split; [reflexivity|]. split.
  { intros t raw others st Hdet Hphase.
    unfold Guided.detectLoop, Guided.handleHand. rewrite Hdet, Hphase.
    destruct (Guided.isHandInBox _ _ _); cbn; exact Hphase. }
  cbv zeta.
  assert (Hsaving : Guided.detectLoop (guided_tick_at 5000%float) guided_holding
                    = Guided.mkState Guided.done 0%float
                        [centred_hand; centred_hand]
                        Guided.SavingEmbedding 1%float
                        [Guided.SetProgress 1%float;
                         Guided.SetStatus (Guided.HoldPercent 100%float);
                         Guided.SetProgress 1%float;
                         Guided.SetStatus Guided.SavingEmbedding;
                         Guided.AddDoc
                           (mkRecord centred_hand 1700000000000%Z "unknown"%string)]).
  { vm_compute. reflexivity. }
  rewrite Hsaving.
  repeat split; try reflexivity.
  - cbn. intros [H|[H|[H|[H|[H|[H|[]]]]]]]; discriminate H.
  - cbn. do 7 right. left. reflexivity.
Qed.

(* ================================================================== *)
(** * Beyond the claims: the averaging loop on buffers of uneven frames *)

Unset Implicit Arguments.

Section AveragingEdges.
Context {A : Type} `{Arith A}.

Lemma sum_at_short (i : nat) (frames : list (Frame A)) :
  Exists (fun f => length f <= i) frames ->
  forall acc, fold_left (sum_step i) frames acc = None.
Proof.
  induction 1 as [f fs Hf|f fs _ IH]; intros acc; cbn [fold_left].
  - apply nth_error_None in Hf. unfold sum_step at 2. rewrite Hf.
    destruct acc; apply sum_step_None.
  - apply IH.
Qed.

Lemma average_loop_short (frames : list (Frame A)) (j : nat) :
  sum_at j frames = None ->
  forall todo i averaged,
    i <= j < i + todo ->
    average_loop frames todo i averaged = None.
Proof.
  intros Hj. induction todo as [|todo IH]; intros i averaged Hij; [lia|].
  cbn [average_loop].
  destruct (sum_at i frames) as [sum|] eqn:Hi; [|reflexivity].
  apply IH. assert (i <> j) by congruence. lia.
Qed.

End AveragingEdges.

(** X1.  The averaging loop on a buffer of uneven frames: it runs over the
    landmarks of the first frame only.  When no frame is shorter than the
    first, it returns a frame of the first frame's length whose points are the
    per-index means (landmarks beyond that length are ignored); when some
    frame is shorter than the first, reading its absent landmark throws and
    nothing is returned. *)
Theorem average_uneven_frames {A : Type} `{Arith A}
    (first : Frame A) (rest : list (Frame A)) :
  (Forall (fun f => length first <= length f) rest ->
     average (first :: rest)
     = Some (map (fun i => mean_point i (first :: rest)) (seq 0 (length first))))
  /\ (Exists (fun f => length f < length first) rest ->
      average (first :: rest) = None).
Proof.
  split.
  - intros Hlong. unfold average. rewrite average_loop_means; [reflexivity|].
    constructor; [cbn; lia|].
    eapply Forall_impl; [|exact Hlong]. cbn. intros; lia.
  - intros Hshort. apply Exists_exists in Hshort.
    destruct Hshort as (f & Hin & Hf).
    unfold average. apply (average_loop_short (first :: rest) (length f)); [|lia].
    unfold sum_at. apply sum_at_short.
    apply Exists_cons_tl. apply Exists_exists. exists f. split; [exact Hin|lia].
Qed.

Lemma average_uneven_frames_witness :
  average ragged_frames = None
  /\ average overlong_frames
     = Some [mkPoint 0.2%float 0.2%float 0%float].
Proof.
  split.
  - apply (proj2 (average_uneven_frames
                    [mkPoint 0.1%float 0.1%float 0%float;
                     mkPoint 0.2%float 0.2%float 0%float]
                    [[mkPoint 0.3%float 0.3%float 0%float]])).
    apply Exists_cons_hd. cbn. lia.
  - unfold overlong_frames.
    rewrite (proj1 (average_uneven_frames
                      [mkPoint 0.1%float 0.1%float 0%float]
                      [[mkPoint 0.3%float 0.3%float 0%float;
                        mkPoint 0.2%float 0.2%float 0%float]])).
    + vm_compute. reflexivity.
    + repeat constructor.
Defined.

(* ================================================================== *)
(** * Beyond the claims: runs of the guided capture screen *)

Lemma ltb_antisym (x y : float) : (x <? y)%float = true -> (y <? x)%float = false.
Proof.
  intros Hxy. destruct (y <? x)%float eqn:Hyx; [|reflexivity].
  apply ltb_leb in Hyx. apply ltb_not_leb in Hxy. congruence.
Qed.

(** [Math.min(x, 1)] is never above 1, whatever [x] is (NaN included). *)
Lemma min_one_not_above (x : float) : (1 <? JsMath.min x 1)%float = false.
Proof.
  unfold JsMath.min.
  destruct (x <? 1)%float eqn:Hlt; [now apply ltb_antisym|].
  destruct (1 <? x)%float eqn:Hgt; [reflexivity|].
  destruct (x =? 1)%float; [|reflexivity].
  destruct (JsMath.is_neg_zero x); [exact Hgt|reflexivity].
Qed.

Module GuidedRuns.
Import Guided.

Lemma detectLoop_seen (t : Tick) (f : Frame float) (st : State) :
  seen (detection t) = Some f ->
  detectLoop t st = handleHand f (width t) (height t) (now t) (wall t) (uid t) st.
Proof.
  unfold seen, detectLoop.
  destruct (detection t) as [|[|raw others]]; try discriminate.
  intros E. injection E as <-. reflexivity.
Qed.

Lemma buffer_with_frame_nonempty (buffer : list (Frame float)) (f : Frame float) :
  buffer ++ [f] <> [].
Proof. intros E. apply app_eq_nil in E. destruct E as [_ E]. discriminate E. Qed.

(** The save that ends a hold always finds the frame just pushed: its guard
    is passed, and the outcome is that of the averaging loop. *)
Lemma saveEmbedding_nonempty (wall : Z) (uid : option string) (st : State) :
  holdFrames st <> [] ->
  saveEmbedding wall uid st
  = match average (holdFrames st) with
    | None => emit UnhandledRejection st
    | Some averaged => emit (AddDoc (mkRecord averaged wall (userId_of uid))) st
    end.
Proof.
  intros Hne. unfold saveEmbedding.
  destruct (holdFrames st) as [|first rest]; [congruence|reflexivity].
Qed.

(** What a tick with the hand in the box does to the phase, the phase
    clock and the hold buffer. *)
Lemma handleHand_fields (f : Frame float) (w h now : float) (wall : Z)
    (uid : option string) (st : State) :
  isHandInBox f w h = true ->
  let st' := handleHand f w h now wall uid st in
  match phase st with
  | action =>
      if (ACTION_TIME <=? now - phaseStart st)%float
      then phase st' = hold /\ phaseStart st' = now /\ holdFrames st' = []
      else phase st' = action /\ phaseStart st' = phaseStart st
           /\ holdFrames st' = holdFrames st
  | hold =>
      phase st' = (if (HOLD_TIME <=? now - phaseStart st)%float then done else hold)
      /\ phaseStart st' = phaseStart st
      /\ holdFrames st' = holdFrames st ++ [f]
  | done => st' = st
  end.
Proof.
  intros Hbox st'. unfold st', handleHand. rewrite Hbox. cbn [negb].
  destruct (phase st) eqn:Hphase.
  - destruct (ACTION_TIME <=? now - phaseStart st)%float; cbn; auto.
  - destruct (HOLD_TIME <=? now - phaseStart st)%float.
    + rewrite saveEmbedding_nonempty
        by (cbn; apply buffer_with_frame_nonempty).
      cbn [holdFrames set_phase setStatus setProgress set_holdFrames].
      destruct (average (holdFrames st ++ [f])); cbn; auto.
    + cbn. auto.
  - reflexivity.
Qed.

Lemma out_of_box_step (t : Tick) (st : State) :
  guided_out_of_box t -> detectLoop t st = setStatus KeepInsideBox st.
Proof.
  intros (f & Hseen & Hbox). rewrite (detectLoop_seen _ _ _ Hseen).
  unfold handleHand. now rewrite Hbox.
Qed.

Lemma out_of_box_run (ticks : list Tick) :
  Forall guided_out_of_box ticks ->
  forall st,
    phase (run (map Frame_tick ticks) st) = phase st
    /\ phaseStart (run (map Frame_tick ticks) st) = phaseStart st
    /\ holdFrames (run (map Frame_tick ticks) st) = holdFrames st
    /\ progress (run (map Frame_tick ticks) st) = progress st.
Proof.
  induction 1 as [|t ticks Ht _ IH]; intros st; [cbn; auto|].
  unfold run in *. cbn [map fold_left step].
  rewrite (out_of_box_step t st Ht).
  destruct (IH (setStatus KeepInsideBox st)) as (H1 & H2 & H3 & H4).
  rewrite H1, H2, H3, H4. cbn. auto.
Qed.

(** X2.  Guided screen, hand outside the guide box: ticks that see the hand
    outside the box change neither the phase, the phase clock, the hold
    buffer nor the progress, so the phase timers keep running meanwhile: the
    first in-box tick after such a stretch moves [action] to [hold] if 4000 ms
    have passed since the phase clock, and [hold] to [done] if 5000 ms have. *)
Theorem out_of_box_keeps_the_clock (ticks : list Tick) (st : State) :
  Forall guided_out_of_box ticks ->
  let st' := run (map Frame_tick ticks) st in
  (phase st' = phase st /\ phaseStart st' = phaseStart st
   /\ holdFrames st' = holdFrames st /\ progress st' = progress st)
  /\ (forall t f,
        guided_in_box t f ->
        (phase st = action ->
         (ACTION_TIME <=? now t - phaseStart st)%float = true ->
         phase (run (map Frame_tick (ticks ++ [t])) st) = hold)
        /\ (phase st = hold ->
            (HOLD_TIME <=? now t - phaseStart st)%float = true ->
            phase (run (map Frame_tick (ticks ++ [t])) st) = done)).
Proof.
  intros Hout st'.
  destruct (out_of_box_run ticks Hout st) as (Hp & Hc & Hb & Hg).
  split; [unfold st'; auto|].
  intros t f (Hseen & Hbox).
  assert (Hrun : run (map Frame_tick (ticks ++ [t])) st
                 = handleHand f (width t) (height t) (now t) (wall t) (uid t) st').
  { rewrite map_app. unfold run. rewrite fold_left_app. cbn [map fold_left step].
    now rewrite (detectLoop_seen _ _ _ Hseen). }
  rewrite Hrun.
  pose proof (handleHand_fields f (width t) (height t) (now t) (wall t) (uid t)
                st' Hbox) as Hfields.
  cbv zeta in Hfields. fold st' in Hp, Hc. rewrite Hp, Hc in Hfields.
  split; intros Hphase Hdue; rewrite Hphase, ?Hdue in Hfields; tauto.
Qed.

Lemma out_of_box_keeps_the_clock_witness :
  phase (run (map Frame_tick
                [mkTick (Hands [hand_with_wrist_out]) 640%float 480%float
                   3000%float 0%Z None;
                 guided_tick_at 5000%float]) guided_holding) = done.
Proof.
  apply (proj2 (out_of_box_keeps_the_clock
                  [mkTick (Hands [hand_with_wrist_out]) 640%float 480%float
                     3000%float 0%Z None] guided_holding
                  ltac:(repeat constructor; exists hand_with_wrist_out;
                        split; vm_compute; reflexivity))
               (guided_tick_at 5000%float) centred_hand
               ltac:(split; vm_compute; reflexivity)).
  - reflexivity.
  - vm_compute. reflexivity.
Defined.

Lemma hold_run_buffers (start : float) (ticks : list Tick) (frames : list (Frame float)) :
  Forall2 (fun t f => guided_in_box t f
                      /\ (HOLD_TIME <=? now t - start)%float = false) ticks frames ->
  forall st,
    phase st = hold -> phaseStart st = start ->
    phase (run (map Frame_tick ticks) st) = hold
    /\ phaseStart (run (map Frame_tick ticks) st) = start
    /\ holdFrames (run (map Frame_tick ticks) st) = holdFrames st ++ frames.
Proof.
  induction 1 as [|t f ticks frames ((Hseen & Hbox) & Hearly) _ IH];
    intros st Hphase Hstart.
  - cbn. rewrite app_nil_r. auto.
  - unfold run in *. cbn [map fold_left step].
    rewrite (detectLoop_seen _ _ _ Hseen).
    pose proof (handleHand_fields f (width t) (height t) (now t) (wall t) (uid t)
                  st Hbox) as Hfields.
    cbv zeta in Hfields. rewrite Hphase, Hstart, Hearly in Hfields.
    destruct Hfields as (Hp & Hc & Hb).
    destruct (IH _ Hp Hc) as (Hp' & Hc' & Hb').
    rewrite Hp', Hc', Hb', Hb, <- app_assoc. auto.
Qed.

(** The events of the tick that completes a hold. *)
Lemma handleHand_completes (f : Frame float) (w h now : float) (wall : Z)
    (uid : option string) (st : State) (averaged : Frame float) :
  isHandInBox f w h = true ->
  phase st = hold ->
  (HOLD_TIME <=? now - phaseStart st)%float = true ->
  average (holdFrames st ++ [f]) = Some averaged ->
  In (AddDoc (mkRecord averaged wall (userId_of uid)))
     (trace (handleHand f w h now wall uid st)).
Proof.
  intros Hbox Hphase Hdue Havg. unfold handleHand.
  rewrite Hbox, Hphase, Hdue. cbn [negb].
  rewrite saveEmbedding_nonempty by (cbn; apply buffer_with_frame_nonempty).
  cbn [holdFrames set_phase setStatus setProgress set_holdFrames].
  rewrite Havg. cbn. apply in_or_app. right. left. reflexivity.
Qed.

(** X3.  Guided screen, what a hold buffers: during [hold], every tick
    that sees the hand in the box before 5000 ms have passed appends its frame
    to the hold buffer, in order, and leaves the phase and the phase clock
    alone; the in-box tick that then reaches 5000 ms gives [addDoc] the average of
    exactly the frames buffered so far followed by its own. *)
Theorem hold_buffers_each_in_box_frame (ticks : list Tick)
    (frames : list (Frame float)) (st : State) :
  phase st = hold ->
  Forall2 (fun t f => guided_in_box t f
                      /\ (HOLD_TIME <=? now t - phaseStart st)%float = false)
          ticks frames ->
  let st' := run (map Frame_tick ticks) st in
  phase st' = hold
  /\ phaseStart st' = phaseStart st
  /\ holdFrames st' = holdFrames st ++ frames
  /\ length (holdFrames st') = length (holdFrames st) + length ticks
  /\ (forall t f averaged,
        guided_in_box t f ->
        (HOLD_TIME <=? now t - phaseStart st)%float = true ->
        average (holdFrames st ++ frames ++ [f]) = Some averaged ->
        In (AddDoc (mkRecord averaged (wall t) (userId_of (uid t))))
           (trace (run (map Frame_tick (ticks ++ [t])) st))).
Proof.
  intros Hphase Hticks st'.
  destruct (hold_run_buffers (phaseStart st) ticks frames Hticks st Hphase eq_refl)
    as (Hp & Hc & Hb).
  fold st' in Hp, Hc, Hb.
  repeat split; auto.
  - rewrite Hb, length_app. f_equal. symmetry. exact (Forall2_length Hticks).
  - intros t f averaged (Hseen & Hbox) Hdue Havg.
    rewrite map_app. unfold run. rewrite fold_left_app. cbn [map fold_left step].
    fold (run (map Frame_tick ticks) st). fold st'.
    rewrite (detectLoop_seen _ _ _ Hseen).
    apply handleHand_completes; auto.
    + now rewrite Hc.
    + now rewrite Hb, <- app_assoc.
Qed.

Lemma hold_buffers_each_in_box_frame_witness :
  length (holdFrames (run (map Frame_tick
                             [guided_tick_at 1000%float; guided_tick_at 2000%float])
                          guided_holding)) = 3.
Proof.
  destruct (hold_buffers_each_in_box_frame
              [guided_tick_at 1000%float; guided_tick_at 2000%float]
              [centred_hand; centred_hand] guided_holding eq_refl)
    as (_ & _ & _ & Hlen & _).
  - repeat constructor; vm_compute; reflexivity.
  - exact Hlen.
Defined.

(** X4.  Guided screen, the re-arm timer: whatever the phase is when the
    timer fires (a new hold in progress included), its callback sets the phase
    to [action], empties the hold buffer and sets progress to 0, but leaves the
    phase clock where it was; so the next tick that sees the hand in the box
    goes straight on to [hold] when the old phase clock is 4000 ms or more
    behind.  The button, in contrast, restarts the phase clock. *)
Theorem timer_rearms_without_restarting_the_clock (st : State) :
  (phase (onTimeout st) = action
   /\ holdFrames (onTimeout st) = []
   /\ progress (onTimeout st) = 0%float
   /\ phaseStart (onTimeout st) = phaseStart st)
  /\ (forall t f,
        guided_in_box t f ->
        (ACTION_TIME <=? now t - phaseStart st)%float = true ->
        let st' := run [Timeout_fired; Frame_tick t] st in
        phase st' = hold /\ phaseStart st' = now t /\ holdFrames st' = [])
  /\ (forall now,
        phase (onClick now st) = action
        /\ holdFrames (onClick now st) = []
        /\ phaseStart (onClick now st) = now).
Proof.
  split; [cbn; auto|]. split; [|intros now0; cbn; auto].
  intros t f (Hseen & Hbox) Hdue st'.
  unfold st', run. cbn [fold_left step].
  rewrite (detectLoop_seen _ _ _ Hseen).
  pose proof (handleHand_fields f (width t) (height t) (now t) (wall t) (uid t)
                (onTimeout st) Hbox) as Hfields.
  cbv zeta in Hfields.
  change (phase (onTimeout st)) with action in Hfields.
  change (phaseStart (onTimeout st)) with (phaseStart st) in Hfields.
  rewrite Hdue in Hfields. exact Hfields.
Qed.

Lemma timer_rearms_without_restarting_the_clock_witness :
  phase (run [Timeout_fired; Frame_tick (guided_tick_at 8000%float)] guided_holding)
  = hold.
Proof.
  apply (proj1 (proj2 (timer_rearms_without_restarting_the_clock guided_holding))
           (guided_tick_at 8000%float) centred_hand).
  - split; vm_compute; reflexivity.
  - vm_compute. reflexivity.
Defined.

Lemma run_invariant (P : State -> Prop) (ok : Input -> Prop) :
  (forall i st, ok i -> P st -> P (step i st)) ->
  forall inputs, Forall ok inputs -> forall st, P st -> P (run inputs st).
Proof.
  intros Hstep. induction 1 as [|i inputs Hi _ IH]; intros st HP; [exact HP|].
  unfold run in *. cbn [fold_left]. apply IH. now apply Hstep.
Qed.

Ltac trace_events :=
  cbn [trace emit setStatus setProgress set_phase set_phaseStart set_holdFrames];
  repeat (apply Forall_app; split; [|apply Forall_cons; [|apply Forall_nil]]).

Section StepTrace.
Variable Q : Event -> Prop.
Hypothesis Q_status : forall s, s <> NoHandTryAgain -> Q (SetStatus s).
Hypothesis Q_progress : forall p, (1 <? p)%float = false -> Q (SetProgress p).
Hypothesis Q_confetti : Q Confetti.
Hypothesis Q_warn : Q ConsoleWarn.
Hypothesis Q_timeout : Q (SetTimeout 3000%float).

(** Every call one input makes: no status text but the listed ones, no
    progress above 1, [addDoc] only with the average of the buffer and the
    frame of a tick that completes a hold, a rejection only from a rejected
    [addDoc] or from an averaging loop that threw. *)
Lemma step_trace (i : Input) (st : State) :
  (forall t f averaged,
      i = Frame_tick t -> guided_in_box t f -> phase st = hold ->
      average (holdFrames st ++ [f]) = Some averaged ->
      Q (AddDoc (mkRecord averaged (wall t) (userId_of (uid t))))) ->
  (i = Save_settled false
   \/ (exists t f, i = Frame_tick t /\ guided_in_box t f /\ phase st = hold
                   /\ average (holdFrames st ++ [f]) = None) ->
   Q UnhandledRejection) ->
  Forall Q (trace st) ->
  Forall Q (trace (step i st)).
Proof.
  intros Hdoc Hrej Hst. destruct i as [t|now0|fulfilled|]; cbn [step].
  - destruct (seen (detection t)) as [f|] eqn:Hseen.
    + rewrite (detectLoop_seen _ _ _ Hseen). unfold handleHand.
      destruct (isHandInBox f (width t) (height t)) eqn:Hbox; cbn [negb].
      2:{ trace_events; auto. apply Q_status. discriminate. }
      destruct (phase st) eqn:Hphase; [| |exact Hst].
      * destruct (ACTION_TIME <=? now t - phaseStart st)%float;
          trace_events; auto;
          try (apply Q_status; discriminate);
          try (apply Q_progress; (reflexivity || apply min_one_not_above)).
      * destruct (HOLD_TIME <=? now t - phaseStart st)%float.
        -- rewrite saveEmbedding_nonempty
             by (cbn; apply buffer_with_frame_nonempty).
           cbn [holdFrames set_phase setStatus setProgress set_holdFrames].
           destruct (average (holdFrames st ++ [f])) as [averaged|] eqn:Havg;
             trace_events; auto;
             try (apply Q_status; discriminate);
             try (apply Q_progress; (reflexivity || apply min_one_not_above)).
           ++ apply (Hdoc t f averaged); auto. split; auto.
           ++ apply Hrej. right. exists t, f. repeat split; auto.
        -- trace_events; auto;
             try (apply Q_status; discriminate);
             try (apply Q_progress; (reflexivity || apply min_one_not_above)).
    + unfold seen in Hseen. unfold detectLoop.
      destruct (detection t) as [|[|raw others]]; try discriminate;
        trace_events; auto;
        try (apply Q_status; discriminate);
        try (apply Q_progress; reflexivity).
  - exact Hst.
  - unfold saveEmbedding_settled. destruct fulfilled; trace_events; auto.
    apply Q_status. discriminate.
  - unfold onTimeout. trace_events; auto;
      try (apply Q_status; discriminate);
      try (apply Q_progress; reflexivity).
Qed.

End StepTrace.

(** What one input does to the phase and the hold buffer. *)
Lemma step_buffer (R : Frame float -> Prop) (i : Input) (st : State) :
  (forall t f, i = Frame_tick t -> guided_in_box t f -> R f) ->
  (phase st = action -> holdFrames st = []) /\ (phase st = done -> holdFrames st <> [])
  /\ Forall R (holdFrames st) ->
  (phase (step i st) = action -> holdFrames (step i st) = [])
  /\ (phase (step i st) = done -> holdFrames (step i st) <> [])
  /\ Forall R (holdFrames (step i st)).
Proof.
  intros HR (Hact & Hdone & Hall). destruct i as [t|now0|fulfilled|]; cbn [step].
  - destruct (seen (detection t)) as [f|] eqn:Hseen.
    + rewrite (detectLoop_seen _ _ _ Hseen).
      destruct (isHandInBox f (width t) (height t)) eqn:Hbox.
      * pose proof (handleHand_fields f (width t) (height t) (now t) (wall t)
                      (uid t) st Hbox) as Hfields.
        cbv zeta in Hfields.
        assert (Hf : R f) by (apply (HR t f); [reflexivity|split; auto]).
        destruct (phase st) eqn:Hphase.
        -- destruct (ACTION_TIME <=? now t - phaseStart st)%float;
             destruct Hfields as (-> & _ & ->); repeat split; auto; discriminate.
        -- destruct Hfields as (-> & _ & ->).
           repeat split.
           ++ destruct (HOLD_TIME <=? now t - phaseStart st)%float; discriminate.
           ++ intros _. apply buffer_with_frame_nonempty.
           ++ apply Forall_app. split; [exact Hall|]. constructor; [exact Hf|constructor].
        -- rewrite Hfields, Hphase. repeat split; auto; discriminate.
      * unfold handleHand. rewrite Hbox. cbn. auto.
    + unfold seen in Hseen. unfold detectLoop.
      destruct (detection t) as [|[|raw others]]; try discriminate; cbn; auto.
      repeat split; auto; discriminate.
  - cbn. repeat split; auto; discriminate.
  - unfold saveEmbedding_settled. destruct fulfilled; cbn; auto.
  - cbn. repeat split; auto; discriminate.
Qed.

(** X5.  Guided screen, the hold buffer along any run from the start of the
    session (ticks, clicks, settled saves and timers in any order): the buffer
    is empty whenever the phase is [action] and non-empty whenever it is
    [done]; and the empty-buffer guard of [saveEmbedding] is never taken, the
    text "No hand detected. Try again" is never given to [setStatus]. *)
Theorem guided_buffer_follows_phase (inputs : list Input) :
  let st := run inputs initial in
  (phase st = action -> holdFrames st = [])
  /\ (phase st = done -> holdFrames st <> [])
  /\ ~ In (SetStatus NoHandTryAgain) (trace st).
Proof.
  set (Q := fun e : Event => e <> SetStatus NoHandTryAgain).
  set (P := fun st : State =>
              ((phase st = action -> holdFrames st = [])
               /\ (phase st = done -> holdFrames st <> [])
               /\ Forall (fun _ => True) (holdFrames st))
              /\ Forall Q (trace st)).
  assert (HP : P (run inputs initial)).
  { apply (run_invariant P (fun _ => True)).
    - intros i st _ (Hbuf & Htrace). split.
      + apply step_buffer; auto.
      + apply step_trace; auto; unfold Q; try discriminate.
        intros s Hs E. injection E as E. contradiction.
    - apply Forall_forall. auto.
    - unfold P. cbn. repeat split; auto; discriminate. }
  destruct HP as ((Hact & Hdone & _) & Htrace).
  repeat split; auto.
  intros Hin. rewrite Forall_forall in Htrace. now apply (Htrace _ Hin).
Qed.

Lemma guided_buffer_follows_phase_witness :
  holdFrames (run [Click 5%float] initial) = [].
Proof.
  apply (proj1 (guided_buffer_follows_phase [Click 5%float])).
  reflexivity.
Defined.

(** X6.  Guided screen under the detector's contract (every reported hand
    has 21 landmarks), along any run from the start of the session: every
    buffered frame has 21 landmarks, every embedding given to [addDoc] has 21
    points, and the averaging loop never throws: unless an [addDoc] is
    rejected, no promise of [saveEmbedding] is ever rejected. *)
Theorem guided_contract_keeps_21_landmarks (inputs : list Input) :
  Forall guided_well_formed inputs ->
  let st := run inputs initial in
  Forall (fun f => length f = 21) (holdFrames st)
  /\ (forall r, In (AddDoc r) (trace st) -> length (embedding r) = 21)
  /\ (Forall guided_no_rejection inputs -> ~ In UnhandledRejection (trace st)).
Proof.
  intros Hwf.
  set (R := fun f : Frame float => length f = 21).
  set (Q := fun e : Event =>
              match e with AddDoc r => length (embedding r) = 21 | _ => True end).
  set (Q' := fun e : Event => e <> UnhandledRejection).
  set (B := fun st : State =>
              (phase st = action -> holdFrames st = [])
              /\ (phase st = done -> holdFrames st <> [])
              /\ Forall R (holdFrames st)).
  assert (HR : forall i, guided_well_formed i ->
                 forall t f, i = Frame_tick t -> guided_in_box t f -> R f).
  { intros i Hi t f -> (Hseen & _). unfold guided_well_formed, well_formed in Hi.
    unfold seen in Hseen.
    destruct (detection t) as [|[|raw others]]; try discriminate.
    injection Hseen as <-. unfold R, normalize. rewrite length_map.
    exact (Forall_inv Hi). }
  assert (Havg : forall st f, B st -> R f ->
                   exists averaged,
                     average (holdFrames st ++ [f]) = Some averaged
                     /\ length averaged = 21).
  { intros st f (_ & _ & Hall) Hf.
    rewrite (@average_means _ _ (holdFrames st ++ [f]) 21).
    - eexists. split; [reflexivity|]. now rewrite length_map, length_seq.
    - apply buffer_with_frame_nonempty.
    - apply Forall_app. split; [exact Hall|]. constructor; [exact Hf|constructor]. }
  set (P_H1 := fun st => B st /\ Forall Q (trace st)).
  assert (H1 : P_H1 (run inputs initial)).
  { apply (run_invariant P_H1 guided_well_formed); [|exact Hwf|].
    - intros i st Hi (Hbuf & Htrace). split.
      + apply step_buffer; auto. apply HR. exact Hi.
      + apply step_trace; unfold Q; auto.
        intros t f averaged Ei Hbox _ E.
        destruct (Havg st f Hbuf (HR i Hi t f Ei Hbox)) as (a & Ea & Hlen).
        cbn. congruence.
    - unfold B. cbn. repeat split; auto; discriminate. }
  destruct H1 as ((_ & _ & Hall) & Htrace).
  split; [exact Hall|]. split.
  - intros r Hin. rewrite Forall_forall in Htrace. exact (Htrace _ Hin).
  - intros Hnorej.
    set (P_H2 := fun st => B st /\ Forall Q' (trace st)).
    assert (H2 : P_H2 (run inputs initial)).
    { apply (run_invariant P_H2 (fun i => guided_well_formed i /\ guided_no_rejection i)).
      - intros i st (Hi & Hno) (Hbuf & Htr). split.
        + apply step_buffer; auto. apply HR. exact Hi.
        + apply step_trace; unfold Q'; auto; try discriminate.
          intros [->|(t & f & Ei & Hbox & _ & E)]; [exact (False_ind _ Hno)|].
          destruct (Havg st f Hbuf (HR i Hi t f Ei Hbox)) as (a & Ea & _).
          congruence.
      - rewrite Forall_forall in *. auto.
      - unfold B. cbn. repeat split; auto; discriminate. }
    destruct H2 as (_ & Htr). intros Hin.
    rewrite Forall_forall in Htr. now apply (Htr _ Hin).
Qed.

Lemma guided_contract_keeps_21_landmarks_witness :
  Forall (fun f => length f = 21)
    (holdFrames (run [Frame_tick (guided_tick_at 4000%float);
                      Frame_tick (guided_tick_at 5000%float)] initial)).
Proof.
  apply (guided_contract_keeps_21_landmarks
           [Frame_tick (guided_tick_at 4000%float);
            Frame_tick (guided_tick_at 5000%float)]).
  repeat constructor.
Defined.



Lemma guided_progress_never_above_one (inputs : list Input) (p : float) :
  In (SetProgress p) (trace (run inputs initial)) -> (1 <? p)%float = false.
Proof.
  set (Q := fun e : Event =>
              match e with SetProgress p => (1 <? p)%float = false | _ => True end).
  set (P_H1 := fun st => Forall Q (trace st)).
  assert (H1 : P_H1 (run inputs initial)).
  { apply (run_invariant P_H1 (fun _ => True)).
    - intros i st _ Htrace. apply step_trace; unfold Q; auto.
    - apply Forall_forall. auto.
    - constructor. }
  intros Hin. unfold P_H1 in H1. rewrite Forall_forall in H1. exact (H1 _ Hin).
Qed.

End GuidedRuns.

(* ================================================================== *)
(** * Beyond the claims: runs of the game screen *)

Module GameRuns.
Import Game.

Lemma game_run_invariant (isMobile : bool) (P : State -> Prop) (ok : Input -> Prop) :
  (forall i st, ok i -> P st -> P (step isMobile i st)) ->
  forall inputs, Forall ok inputs -> forall st, P st -> P (run isMobile inputs st).
Proof.
  intros Hstep. induction 1 as [|i inputs Hi _ IH]; intros st HP; [exact HP|].
  unfold run in *. cbn [fold_left]. apply IH. now apply Hstep.
Qed.

Ltac fields :=
  cbn [phase phaseStart holdFrames gameStart status progress score target
       rulesCountdown gameTimeLeft trace
       set_phase set_phaseStart set_holdFrames set_gameStart setScore setTarget
       setRulesCountdown setGameTimeLeft emit setStatus setProgress].

Ltac same_state := apply GameFacts.State_ext; fields; try reflexivity.

Lemma game_detectLoop_seen (isMobile : bool) (t : Tick) (f : Frame float) (st : State) :
  seen (detection t) = Some f ->
  detectLoop isMobile t st
  = match phase st with
    | rules => updateRulesPhase (now t) st
    | game => updateGamePhase isMobile (nth_error f 0) (now t) (now' t)
                (random_x t) (random_y t) st
    | postHit => updatePostHitPhase f (now t) (wall t) (uid t) st
    | _ => st
    end.
Proof.
  unfold seen, detectLoop.
  destruct (detection t) as [|[|raw others]]; try discriminate.
  intros E. injection E as <-. reflexivity.
Qed.

Lemma detectLoop_unseen (isMobile : bool) (t : Tick) (st : State) :
  seen (detection t) = None ->
  detectLoop isMobile t st = emit ConsoleWarn st
  \/ detectLoop isMobile t st
     = match phase st with rules => setRulesCountdown 7%float st | _ => st end.
Proof.
  unfold seen, detectLoop.
  destruct (detection t) as [|[|raw others]]; try discriminate; auto.
Qed.

(** The two outcomes of a tick in [rules]. *)
Lemma updateRulesPhase_cases (now : float) (st : State) :
  let countdown :=
    JsMath.ceil (JsMath.max 0 (RULES_TIME - (now - phaseStart st)) / 1000) in
  ((RULES_TIME <=? now - phaseStart st)%float = false
   /\ updateRulesPhase now st
      = mkState (phase st) (phaseStart st) (holdFrames st) (gameStart st)
          (RulesText countdown) (progress st) (score st) (target st) countdown
          (gameTimeLeft st) (trace st ++ [SetStatus (RulesText countdown)]))
  \/ ((RULES_TIME <=? now - phaseStart st)%float = true
      /\ updateRulesPhase now st
         = mkState game now (holdFrames st) now GameStarted (progress st)
             (score st) (target st) countdown 60%float
             (trace st ++ [SetStatus (RulesText countdown); SetStatus GameStarted])).
Proof.
  intros countdown. unfold updateRulesPhase. fold countdown.
  destruct (RULES_TIME <=? now - phaseStart st)%float; [right|left];
    (split; [reflexivity|]); same_state.
  now rewrite <- app_assoc.
Qed.

(** The four outcomes of a tick in [game]. *)
Lemma updateGamePhase_cases (isMobile : bool) (wrist : option (Point float))
    (now now' rx ry : float) (st : State) :
  ((GAME_TIME <=? now - gameStart st)%float = true
   /\ updateGamePhase isMobile wrist now now' rx ry st
      = mkState finished (phaseStart st) (holdFrames st) (gameStart st)
          (GameOver (score st)) (progress st) (score st) (target st)
          (rulesCountdown st) (time_left now st)
          (trace st ++ [SetStatus (GameOver (score st))]))
  \/ ((GAME_TIME <=? now - gameStart st)%float = false
      /\ wrist = None
      /\ updateGamePhase isMobile wrist now now' rx ry st
         = mkState (phase st) (phaseStart st) (holdFrames st) (gameStart st)
             (status st) (progress st) (score st) (target st)
             (rulesCountdown st) (time_left now st) (trace st ++ [ConsoleWarn]))
  \/ ((GAME_TIME <=? now - gameStart st)%float = false
      /\ (exists w, wrist = Some w
                    /\ (wrist_distance w (target st) <? TARGET_RADIUS isMobile)%float
                       = false)
      /\ updateGamePhase isMobile wrist now now' rx ry st
         = mkState (phase st) (phaseStart st) (holdFrames st) (gameStart st)
             (status st) (progress st) (score st) (target st)
             (rulesCountdown st) (time_left now st) (trace st))
  \/ ((GAME_TIME <=? now - gameStart st)%float = false
      /\ (exists w, wrist = Some w
                    /\ (wrist_distance w (target st) <? TARGET_RADIUS isMobile)%float
                       = true)
      /\ updateGamePhase isMobile wrist now now' rx ry st
         = mkState postHit now' [] (gameStart st) ShowOpenPalm 0%float
             (score st + 1)%float (mkTarget rx ry) (rulesCountdown st)
             (time_left now st)
             (trace st ++ [SetProgress 0%float; SetStatus ShowOpenPalm])).
Proof.
  unfold updateGamePhase, time_left, wrist_distance.
  destruct (GAME_TIME <=? now - gameStart st)%float.
  - left. split; [reflexivity|]. same_state.
  - right. destruct wrist as [w|].
    + right. cbn [target score setGameTimeLeft].
      match goal with
      | |- context [if ?c then _ else _] => destruct c eqn:Hhit
      end.
      * right. split; [reflexivity|]. split; [exists w; auto|].
        same_state. now rewrite <- app_assoc.
      * left. split; [reflexivity|]. split; [exists w; auto|]. same_state.
    + left. split; [reflexivity|]. split; [reflexivity|]. same_state.
Qed.

(** The four outcomes of a tick in [postHit]. *)
Lemma updatePostHitPhase_cases (f : Frame float) (now : float) (wall : Z)
    (uid : option string) (st : State) :
  let shown := JsMath.min ((now - phaseStart st) / ACTION_HOLD_TIME) 1 in
  (isPalmOpen (Some f) = false
   /\ updatePostHitPhase f now wall uid st
      = mkState (phase st) now [] (gameStart st) KeepPalmOpen 0%float (score st)
          (target st) (rulesCountdown st) (gameTimeLeft st)
          (trace st ++ [SetProgress 0%float; SetStatus KeepPalmOpen]))
  \/ (isPalmOpen (Some f) = true
      /\ (ACTION_HOLD_TIME <=? now - phaseStart st)%float = false
      /\ updatePostHitPhase f now wall uid st
         = mkState (phase st) (phaseStart st) (holdFrames st ++ [f]) (gameStart st)
             (status st) shown (score st) (target st) (rulesCountdown st)
             (gameTimeLeft st) (trace st ++ [SetProgress shown]))
  \/ (isPalmOpen (Some f) = true
      /\ (ACTION_HOLD_TIME <=? now - phaseStart st)%float = true
      /\ exists call,
           (call = UnhandledRejection /\ average (holdFrames st ++ [f]) = None
            \/ exists averaged,
                 call = AddDoc (mkRecord averaged wall (userId_of uid))
                 /\ average (holdFrames st ++ [f]) = Some averaged)
           /\ updatePostHitPhase f now wall uid st
              = mkState game now [] (gameStart st) BackToGame 0%float (score st)
                  (target st) (rulesCountdown st) (gameTimeLeft st)
                  (trace st ++ [SetProgress shown; call; SetProgress 0%float;
                                SetStatus BackToGame])).
Proof.
  intros shown. unfold updatePostHitPhase.
  destruct (isPalmOpen (Some f)); cbn [negb].
  - right. cbn [phaseStart set_holdFrames]. fold shown.
    destruct (ACTION_HOLD_TIME <=? now - phaseStart st)%float.
    + right. split; [reflexivity|]. split; [reflexivity|].
      unfold saveEmbedding. cbn [holdFrames setProgress set_holdFrames].
      destruct (holdFrames st ++ [f]) as [|first rest] eqn:E.
      { apply app_eq_nil in E. destruct E as [_ E]. discriminate E. }
      destruct (average (first :: rest)) as [averaged|].
      * exists (AddDoc (mkRecord averaged wall (userId_of uid))).
        split; [right; exists averaged; auto|].
        same_state. now rewrite <- !app_assoc.
      * exists UnhandledRejection. split; [left; auto|].
        same_state. now rewrite <- !app_assoc.
    + left. split; [reflexivity|]. split; [reflexivity|]. same_state.
  - left. split; [reflexivity|]. same_state. now rewrite <- app_assoc.
Qed.

(** Splits a step of the screen into the outcomes of the code's branches,
    each with the state it leaves written out. *)
Ltac step_cases :=
  match goal with
  | |- context [step ?m ?i ?st] =>
      destruct i as [t|now0|fulfilled]; cbn [step];
      [ destruct (seen (detection t)) as [f|] eqn:Hseen;
        [ rewrite (game_detectLoop_seen m t f st Hseen);
          destruct (phase st) eqn:Hphase;
          [ | destruct (updateRulesPhase_cases (now t) st)
                as [(Hearly & ->)|(Hdue & ->)]
            | destruct (updateGamePhase_cases m (nth_error f 0) (now t) (now' t)
                          (random_x t) (random_y t) st)
                as [(Hover & ->)
                   |[(Hplay & Hwrist & ->)
                    |[(Hplay & (w & Hwrist & Hmiss) & ->)
                     |(Hplay & (w & Hwrist & Hhit) & ->)]]]
            | destruct (updatePostHitPhase_cases f (now t) (wall t) (uid t) st)
                as [(Hclosed & ->)
                   |[(Hopen & Hearly & ->)
                    |(Hopen & Hdue & call & Hcall & ->)]]
            | ]
        | destruct (detectLoop_unseen m t st Hseen) as [-> | ->];
          [|destruct (phase st) eqn:Hphase] ]
      | unfold onClick; destruct (phase st) eqn:Hphase
      | unfold saveEmbedding_settled; destruct fulfilled ]
  end; fields.

(** X8.  Game screen, the hit test: on a tick in [game] before the game
    time is up, the wrist (landmark 0) scores exactly when its distance to the
    target is below the target radius: the score goes up by 1, the target
    moves to the two random draws, the phase is [postHit] with the phase clock
    at the second clock reading, an empty hold buffer and progress 0.  On a
    miss only the displayed time left changes.  A hand reported without any
    landmark makes the tick log a warning and change nothing else but the time
    left. *)
Theorem hit_test_outcomes (isMobile : bool) (t : Tick) (f : Frame float) (st : State) :
  seen (detection t) = Some f ->
  phase st = game ->
  (GAME_TIME <=? now t - gameStart st)%float = false ->
  let st' := detectLoop isMobile t st in
  (forall w,
      nth_error f 0 = Some w ->
      (wrist_distance w (target st) <? TARGET_RADIUS isMobile)%float = true ->
      st' = mkState postHit (now' t) [] (gameStart st) ShowOpenPalm 0%float
              (score st + 1)%float (mkTarget (random_x t) (random_y t))
              (rulesCountdown st) (time_left (now t) st)
              (trace st ++ [SetProgress 0%float; SetStatus ShowOpenPalm]))
  /\ (forall w,
        nth_error f 0 = Some w ->
        (wrist_distance w (target st) <? TARGET_RADIUS isMobile)%float = false ->
        st' = mkState game (phaseStart st) (holdFrames st) (gameStart st)
                (status st) (progress st) (score st) (target st)
                (rulesCountdown st) (time_left (now t) st) (trace st))
  /\ (nth_error f 0 = None ->
      st' = mkState game (phaseStart st) (holdFrames st) (gameStart st)
              (status st) (progress st) (score st) (target st)
              (rulesCountdown st) (time_left (now t) st)
              (trace st ++ [ConsoleWarn])).
Proof.
  intros Hseen Hphase Hplay st'. unfold st'.
  rewrite (game_detectLoop_seen isMobile t f st Hseen), Hphase.
  destruct (updateGamePhase_cases isMobile (nth_error f 0) (now t) (now' t)
              (random_x t) (random_y t) st)
    as [(Hover & _)
       |[(_ & Hwrist & ->)
        |[(_ & (w & Hwrist & Hmiss) & ->)
         |(_ & (w & Hwrist & Hhit) & ->)]]];
    [congruence| | |]; rewrite Hwrist, ?Hphase;
    repeat split; try discriminate; try reflexivity;
    intros w' E; injection E as <-; intros; congruence.
Qed.

Lemma hit_test_outcomes_witness :
  score (detectLoop false (game_tick_with [centred_hand] 2000%float) game_playing)
  = 3%float.
Proof.
  rewrite (proj1 (hit_test_outcomes false (game_tick_with [centred_hand] 2000%float)
                    centred_hand game_playing eq_refl eq_refl eq_refl)
             (mkPoint 0.5%float 0.5%float 0%float) eq_refl eq_refl).
  reflexivity.
Defined.

(** X9.  Game screen, the moves between phases: one input either leaves
    the phase as it is or makes one of the moves idle to rules, rules to game,
    game to postHit, game to finished, postHit to game.  So a post-hit hold
    never ends the game, however long ago the game started, and nothing leads
    back to idle or rules.  Only a click leaves [idle]; every other move
    happens on a tick that sees a hand. *)
Theorem game_phase_moves (isMobile : bool) (i : Input) (st : State) :
  allowed (phase st) (phase (step isMobile i st))
  /\ (phase (step isMobile i st) <> phase st ->
      (exists now, i = Click now /\ phase st = idle)
      \/ (exists t f, i = Frame_tick t /\ seen (detection t) = Some f
                      /\ phase st <> idle)).
Proof.
  step_cases; rewrite ?Hphase;
    (split; [constructor|]); intros Hmove; try congruence;
    try (left; eexists; split; reflexivity);
    right; exists t, f; repeat split; auto; congruence.
Qed.

Lemma game_phase_moves_witness :
  exists now, Click 10%float = Click now /\ phase initial = idle.
Proof.
  destruct (proj2 (game_phase_moves false (Click 10%float) initial))
    as [Hclick|(t & f & E & _)].
  - cbn. discriminate.
  - exact Hclick.
  - discriminate E.
Defined.

(** X10.  Game screen, after the rules: along any run (ticks, clicks and
    settled saves in any order) that starts in [game], [postHit] or [finished],
    the phase stays among these three and the game-start clock is never
    written again: hits, holds and restarts of the hold timer do not extend
    the game. *)
Theorem game_clock_is_never_restarted (isMobile : bool) (inputs : list Input)
    (st : State) :
  in_play (phase st) ->
  in_play (phase (run isMobile inputs st))
  /\ gameStart (run isMobile inputs st) = gameStart st.
Proof.
  intros Hplay0.
  set (P := fun s : State => in_play (phase s) /\ gameStart s = gameStart st).
  apply (game_run_invariant isMobile P (fun _ => True)).
  - intros i s _ (Hin & Hclock). unfold P, in_play in *.
    step_cases; rewrite ?Hphase in *; auto;
      destruct Hin as [Hin|[Hin|Hin]]; try discriminate Hin; auto.
  - apply Forall_forall. auto.
  - split; auto.
Qed.

Lemma game_clock_is_never_restarted_witness :
  gameStart (run false [Frame_tick (game_tick_with [centred_hand] 2000%float);
                        Frame_tick (game_tick_with [open_hand] 9000%float)]
               game_playing)
  = 500%float.
Proof.
  apply (game_clock_is_never_restarted false
           [Frame_tick (game_tick_with [centred_hand] 2000%float);
            Frame_tick (game_tick_with [open_hand] 9000%float)] game_playing).
  left. reflexivity.
Defined.

Ltac new_events :=
  repeat (apply Forall_app; split; [|repeat (apply Forall_cons; [|try apply Forall_nil])]).

(** X11.  Game screen, what is buffered and saved, along any run from the
    start of the session: frames are buffered only during a post-hit hold (the
    buffer is empty in every other phase), every buffered frame passed the
    open-palm test, and every embedding given to [addDoc] is the average of a
    non-empty list of frames that passed it. *)
Theorem game_saves_only_open_palms (isMobile : bool) (inputs : list Input) :
  let st := run isMobile inputs initial in
  (phase st <> postHit -> holdFrames st = [])
  /\ Forall open_palm (holdFrames st)
  /\ (forall r, In (AddDoc r) (trace st) ->
        exists frames,
          frames <> [] /\ Forall open_palm frames
          /\ average frames = Some (embedding r)).
Proof.
  set (Q := fun e : Event =>
              match e with
              | AddDoc r => exists frames,
                  frames <> [] /\ Forall open_palm frames
                  /\ average frames = Some (embedding r)
              | _ => True
              end).
  set (P := fun s : State =>
              (phase s <> postHit -> holdFrames s = [])
              /\ Forall open_palm (holdFrames s)
              /\ Forall Q (trace s)).
  assert (HP : P (run isMobile inputs initial)).
  { apply (game_run_invariant isMobile P (fun _ => True)).
    - intros i s _ (Hempty & Hall & Htrace). unfold P.
      step_cases; rewrite ?Hphase in *;
        (split; [|split]);
        try (intros Hne; (congruence || (apply Hempty; discriminate)));
        try assumption; try constructor;
        new_events; try assumption; try exact I.
      all: try match goal with
               | |- Forall open_palm (_ ++ [_]) =>
                   apply Forall_app; split; [assumption|];
                   constructor; [exact Hopen|constructor]
               end.
      destruct Hcall as [(-> & _)|(averaged & -> & Havg)]; [exact I|].
      exists (holdFrames s ++ [f]).
      split; [apply GuidedRuns.buffer_with_frame_nonempty|]. split; [|exact Havg].
      apply Forall_app. split; [assumption|]. constructor; [exact Hopen|constructor].
    - apply Forall_forall. auto.
    - unfold P. cbn. repeat split; auto; constructor. }
  destruct HP as (Hempty & Hall & Htrace).
  repeat split; auto.
  intros r Hin. rewrite Forall_forall in Htrace. exact (Htrace _ Hin).
Qed.

Lemma game_saves_only_open_palms_witness :
  holdFrames (run false [Click 0%float] initial) = [].
Proof.
  apply (proj1 (game_saves_only_open_palms false [Click 0%float])).
  cbn. discriminate.
Defined.

Lemma seen_has_21_landmarks (d : Detection) (f : Frame float) :
  well_formed d -> seen d = Some f -> length f = 21.
Proof.
  unfold well_formed, seen. destruct d as [|[|raw others]]; try discriminate.
  intros Hwf E. injection E as <-. unfold normalize. rewrite length_map.
  exact (Forall_inv Hwf).
Qed.

(** X12.  Game screen under the detector's contract (every reported hand
    has 21 landmarks), along any run from the start of the session: the
    averaging loop never throws, and hits and saves pair up: the number of
    hits equals the number of embeddings given to [addDoc], plus one while a
    post-hit hold is still open.  No hit is saved twice and none is skipped. *)
Theorem every_hit_is_saved_once (isMobile : bool) (inputs : list Input) :
  Forall game_well_formed inputs ->
  let st := run isMobile inputs initial in
  length (filter is_hit (trace st))
  = length (filter is_save (trace st)) + open_holds (phase st)
  /\ ~ In UnhandledRejection (trace st)
  /\ Forall (fun f => length f = 21) (holdFrames st).
Proof.
  intros Hwf.
  set (Q := fun e : Event => e <> UnhandledRejection).
  set (P := fun s : State =>
              Forall (fun f => length f = 21) (holdFrames s)
              /\ length (filter is_hit (trace s))
                 = length (filter is_save (trace s)) + open_holds (phase s)
              /\ Forall Q (trace s)).
  assert (HP : P (run isMobile inputs initial)).
  { apply (game_run_invariant isMobile P game_well_formed); [|exact Hwf|].
    - intros i s Hi (Hlen & Hcount & Htrace). unfold P.
      assert (Hf : forall t f, i = Frame_tick t -> seen (detection t) = Some f ->
                               length f = 21).
      { intros t f -> Hseen. exact (seen_has_21_landmarks _ _ Hi Hseen). }
      step_cases; rewrite ?Hphase in *; cbn [open_holds] in *;
        try (destruct Hcall as [(-> & Hnone)|(averaged & -> & Havg)];
             [exfalso;
              rewrite (@average_means _ _ (holdFrames s ++ [f]) 21) in Hnone;
              [discriminate Hnone
              |apply GuidedRuns.buffer_with_frame_nonempty
              |apply Forall_app; split; [assumption|];
               constructor; [exact (Hf t f eq_refl Hseen)|constructor]]
             |]);
        (split; [|split]);
        try assumption;
        try match goal with
            | |- Forall _ [] => constructor
            | |- Forall _ (holdFrames _ ++ [_]) =>
                apply Forall_app; split; [assumption|];
                constructor; [exact (Hf t f eq_refl Hseen)|constructor]
            | |- length _ = _ =>
                rewrite ?filter_app, ?length_app; cbn; lia
            | |- Forall Q _ =>
                new_events; try assumption; unfold Q; discriminate
            end.
    - unfold P. cbn. repeat split; constructor. }
  destruct HP as (Hlen & Hcount & Htrace).
  repeat split; auto.
  intros Hin. rewrite Forall_forall in Htrace. now apply (Htrace _ Hin).
Qed.

Lemma every_hit_is_saved_once_witness :
  length (filter is_hit
            (trace (run false
                      [Click 0%float;
                       Frame_tick (game_tick_with [centred_hand] 10000%float);
                       Frame_tick (game_tick_with [centred_hand] 11000%float)]
                      initial))) = 1.
Proof.
  rewrite (proj1 (every_hit_is_saved_once false
                    [Click 0%float;
                     Frame_tick (game_tick_with [centred_hand] 10000%float);
                     Frame_tick (game_tick_with [centred_hand] 11000%float)]
                    ltac:(repeat constructor))).
  vm_compute. reflexivity.
Defined.

Lemma no_hand_run_in_rules (isMobile : bool) (gap : list Tick) :
  Forall no_hand gap ->
  forall st,
    phase st = rules ->
    run isMobile (map Frame_tick gap) st
    = match gap with [] => st | _ :: _ => setRulesCountdown 7%float st end.
Proof.
  induction 1 as [|t gap Ht _ IH]; intros st Hphase; [reflexivity|].
  unfold run in *. cbn [map fold_left step].
  assert (E : detectLoop isMobile t st = setRulesCountdown 7%float st).
  { unfold detectLoop. unfold no_hand in Ht. now rewrite Ht, Hphase. }
  rewrite E, IH by exact Hphase. now destruct gap.
Qed.

(** X13.  Game screen, the rules phase: ticks without a hand only put the
    displayed countdown back to 7, they neither stop nor restart the rules
    timer and never start the game; the first tick that sees a hand starts
    the game exactly when 10000 ms have passed since the phase clock, setting
    the phase clock and the game-start clock to now and the time left to 60
    and leaving the score alone, and otherwise displays the seconds left of
    the 10, rounded up. *)
Theorem rules_wait_for_a_hand (isMobile : bool) (gap : list Tick) (t : Tick)
    (f : Frame float) (st : State) :
  phase st = rules ->
  Forall no_hand gap ->
  seen (detection t) = Some f ->
  let waiting := run isMobile (map Frame_tick gap) st in
  let st' := run isMobile (map Frame_tick (gap ++ [t])) st in
  let elapsed := (now t - phaseStart st)%float in
  (phase waiting = rules /\ phaseStart waiting = phaseStart st
   /\ score waiting = score st
   /\ (gap <> [] -> rulesCountdown waiting = 7%float))
  /\ ((RULES_TIME <=? elapsed)%float = true ->
      phase st' = game /\ phaseStart st' = now t /\ gameStart st' = now t
      /\ gameTimeLeft st' = 60%float /\ score st' = score st)
  /\ ((RULES_TIME <=? elapsed)%float = false ->
      phase st' = rules /\ phaseStart st' = phaseStart st
      /\ rulesCountdown st'
         = JsMath.ceil (JsMath.max 0 (RULES_TIME - elapsed) / 1000)).
Proof.
  intros Hphase Hgap Hseen waiting st' elapsed. subst elapsed.
  assert (Hwait : phase waiting = rules /\ phaseStart waiting = phaseStart st
                  /\ score waiting = score st
                  /\ (gap <> [] -> rulesCountdown waiting = 7%float)).
  { unfold waiting. rewrite (no_hand_run_in_rules isMobile gap Hgap st Hphase).
    destruct gap; cbn; repeat split; auto; congruence. }
  split; [exact Hwait|].
  destruct Hwait as (Hp & Hc & Hs & _).
  assert (Hrun : st' = updateRulesPhase (now t) waiting).
  { unfold st'. rewrite map_app. unfold run. rewrite fold_left_app.
    cbn [map fold_left step]. fold (run isMobile (map Frame_tick gap) st).
    fold waiting. now rewrite (game_detectLoop_seen isMobile t f waiting Hseen), Hp. }
  destruct (updateRulesPhase_cases (now t) waiting) as [(Hearly & E)|(Hdue & E)];
    rewrite Hc in Hearly || rewrite Hc in Hdue;
    rewrite Hrun, E; fields;
    split; intros Hcase; try congruence; rewrite ?Hc; auto.
Qed.

Lemma rules_wait_for_a_hand_witness :
  phase (run false (map Frame_tick
                      ([game_tick_with [] 20000%float]
                       ++ [game_tick_with [centred_hand] 30000%float]))
           (onClick 0%float initial)) = game.
Proof.
  apply (proj1 (proj2 (rules_wait_for_a_hand false [game_tick_with [] 20000%float]
                         (game_tick_with [centred_hand] 30000%float) centred_hand
                         (onClick 0%float initial) eq_refl
                         ltac:(repeat constructor) eq_refl))).
  vm_compute. reflexivity.
Defined.

Lemma game_progress_never_above_one (isMobile : bool) (inputs : list Input)
    (p : float) :
  In (SetProgress p) (trace (run isMobile inputs initial)) ->
  (1 <? p)%float = false.
Proof.
  set (Q := fun e : Event =>
              match e with SetProgress p => (1 <? p)%float = false | _ => True end).
  set (P := fun s : State => Forall Q (trace s)).
  assert (HP : P (run isMobile inputs initial)).
  { apply (game_run_invariant isMobile P (fun _ => True)).
    - intros i s _ Htrace. unfold P in *.
      step_cases; try assumption;
        new_events; try assumption; unfold Q;
        try exact I; try reflexivity; try apply min_one_not_above.
      destruct call; exact I || (destruct Hcall as [(E & _)|(a & E & _)]; discriminate E).
    - apply Forall_forall. auto.
    - constructor. }
  intros Hin. unfold P in HP. rewrite Forall_forall in HP. exact (HP _ Hin).
Qed.

(** X14.  Game screen, score and target: whatever the input, the score
    and the target stay as they are unless the input is a hit, that is a move
    from [game] to [postHit], and then the score is exactly one more.  No
    click, settled save, hold or game over touches them. *)
Theorem score_moves_only_on_a_hit (isMobile : bool) (i : Input) (st : State) :
  (phase st = game /\ phase (step isMobile i st) = postHit
   /\ score (step isMobile i st) = (score st + 1)%float)
  \/ (score (step isMobile i st) = score st
      /\ target (step isMobile i st) = target st
      /\ (phase st = game -> phase (step isMobile i st) <> postHit)).
Proof.
  step_cases; rewrite ?Hphase;
    first [ left; repeat split; reflexivity
          | right; repeat split; auto; intros; congruence ].
Qed.

Lemma score_moves_only_on_a_hit_witness :
  score (step false (Click 0%float) game_playing) = score game_playing.
Proof.
  destruct (score_moves_only_on_a_hit false (Click 0%float) game_playing)
    as [(_ & Hphase & _)|(Hscore & _)].
  - vm_compute in Hphase. discriminate Hphase.
  - exact Hscore.
Defined.

End GameRuns.

(* ================================================================== *)
(** * Beyond the claims: the progress both screens report *)

(** X15.  Progress on both screens: along any run from the start of the
    session, no value given to [setProgress] is above 1 (the values are 0, 1
    and [Math.min(elapsed / duration, 1)], NaN included); the code puts no
    bound below. *)
Theorem progress_is_never_above_one :
  (forall (inputs : list Guided.Input) (p : float),
      In (Guided.SetProgress p) (Guided.trace (Guided.run inputs Guided.initial)) ->
      (1 <? p)%float = false)
  /\ (forall (isMobile : bool) (inputs : list Game.Input) (p : float),
        In (Game.SetProgress p)
           (Game.trace (Game.run isMobile inputs Game.initial)) ->
        (1 <? p)%float = false).
Proof.
  split.
  - apply GuidedRuns.guided_progress_never_above_one.
  - apply GameRuns.game_progress_never_above_one.
Qed.

Lemma progress_is_never_above_one_witness :
  (1 <? 1)%float = false.
Proof.
  apply (proj1 progress_is_never_above_one
           [Guided.Frame_tick (guided_tick_at 4000%float)] 1%float).
  vm_compute. left. reflexivity.
Defined.

(* ================================================================== *)
(** * Beyond the claims: the depth of the landmarks handed to the screens *)

Lemma or_zero_idempotent (z : float) : or_zero (or_zero z) = or_zero z.
Proof.
  destruct ((z =? 0)%float || PrimFloat.is_nan z) eqn:Hfalsy.
  - assert (E : or_zero z = 0%float) by (unfold or_zero; now rewrite Hfalsy).
    rewrite E. reflexivity.
  - assert (E : or_zero z = z) by (unfold or_zero; now rewrite Hfalsy).
    now rewrite !E.
Qed.

(** X16.  The frame both loops work on, [p => ({x: p.x, y: p.y, z: p.z || 0})]:
    it has as many landmarks as the detector reported, with their x and y
    untouched; no z is NaN, and a z equal to zero is +0 (a reported -0 or NaN
    becomes +0); and normalising twice is normalising once. *)
Theorem normalize_cleans_depth (raw : Frame float) :
  length (normalize raw) = length raw
  /\ (forall i p, nth_error (normalize raw) i = Some p ->
        exists q, nth_error raw i = Some q /\ px p = px q /\ py p = py q
                  /\ pz p = or_zero (pz q)
                  /\ PrimFloat.is_nan (pz p) = false
                  /\ ((pz p =? 0)%float = true -> pz p = 0%float))
  /\ normalize (normalize raw) = normalize raw.
Proof.
  split; [apply length_map|]. split.
  - intros i p Hp. unfold normalize in Hp. rewrite nth_error_map in Hp.
    destruct (nth_error raw i) as [q|]; [|discriminate Hp].
    injection Hp as <-. exists q. cbn [px py pz].
    repeat split; unfold or_zero;
      destruct ((pz q =? 0)%float || PrimFloat.is_nan (pz q)) eqn:Hfalsy;
      try reflexivity.
    + apply orb_false_elim in Hfalsy. tauto.
    + intros Hzero. apply orb_false_elim in Hfalsy. destruct Hfalsy. congruence.
  - unfold normalize. rewrite map_map. apply map_ext. intros q. cbn [px py pz].
    now rewrite or_zero_idempotent.
Qed.

Lemma normalize_cleans_depth_witness :
  exists q, nth_error [mkPoint 0.5%float 0.5%float PrimFloat.nan] 0 = Some q
            /\ pz (mkPoint 0.5%float 0.5%float 0%float) = or_zero (pz q).
Proof.
  destruct (proj1 (proj2 (normalize_cleans_depth
                            [mkPoint 0.5%float 0.5%float PrimFloat.nan]))
              0 (mkPoint 0.5%float 0.5%float 0%float) eq_refl)
    as (q & Hq & _ & _ & Hz & _).
  exists q. split; [exact Hq|exact Hz].
Defined.
